(** * phish-collect: the Phishtank feed client (feeds/phishtank.py)

    A shallow embedding of [PhishtankFeed._process_rows] and
    [PhishtankFeed.get], together with the Python 2 library routines they
    call ([str.splitlines], [str.split], [csv.reader], [urllib.unquote],
    the UTF-8 codec), and the properties of the feed client stated in the
    specification.

    Python 2 byte strings ([str]) are Rocq [string]s (sequences of 8-bit
    characters); [unicode] objects are lists of code points. *)

From Stdlib Require Import List String Ascii NArith ZArith Bool Lia.
Import ListNotations.

Local Open Scope string_scope.
Local Open Scope list_scope.

(** ** Characters and byte strings *)

Module Bytes.

Definition NUL : ascii := "000"%char.
Definition LF : ascii := "010"%char.
Definition CR : ascii := "013"%char.

Definition is_linebreak (c : ascii) : bool :=
  (c =? LF)%char || (c =? CR)%char.

(** [s + c] for a single character [c]. *)
Definition snoc (s : string) (c : ascii) : string := (s ++ String c "")%string.

(** [str.splitlines()] on a byte string (keepends false): lines end at
    LF, CR or CRLF; the empty string has no line, and a final line break
    opens no further line. *)
Fixpoint splitlines (s : string) : list string :=
  match s with
  | EmptyString => []
  | String c rest =>
      if is_linebreak c then
        "" :: match rest with
              | EmptyString => []
              | String c2 rest2 =>
                  if (c =? CR)%char && (c2 =? LF)%char
                  then splitlines rest2
                  else splitlines rest
              end
      else
        match splitlines rest with
        | [] => [String c ""]
        | l :: ls => String c l :: ls
        end
  end.

(** [s.split(sep)] for a one-character separator: never the empty list. *)
Fixpoint split (sep : ascii) (s : string) : list string :=
  match s with
  | EmptyString => [""]
  | String c rest =>
      if (c =? sep)%char then "" :: split sep rest
      else
        match split sep rest with
        | [] => [String c ""]
        | p :: ps => String c p :: ps
        end
  end.

End Bytes.

(** ** The csv module: [csv.reader(rows, delimiter=',')]

    The reader of Modules/_csv.c with the default (excel) dialect:
    delimiter comma, quote character the double quote (doubled inside a
    quoted field), no escape character, no initial-space skipping, not
    strict.  The two escape states of the C parser are unreachable
    without an escape character and are left out. *)

Module Csv.

Import Bytes.

Inductive ParserState :=
| START_RECORD
| START_FIELD
| IN_FIELD
| IN_QUOTED_FIELD
| QUOTE_IN_QUOTED_FIELD
| EAT_CRNL.

Definition ParserState_eqb (a b : ParserState) : bool :=
  match a, b with
  | START_RECORD, START_RECORD
  | START_FIELD, START_FIELD
  | IN_FIELD, IN_FIELD
  | IN_QUOTED_FIELD, IN_QUOTED_FIELD
  | QUOTE_IN_QUOTED_FIELD, QUOTE_IN_QUOTED_FIELD
  | EAT_CRNL, EAT_CRNL => true
  | _, _ => false
  end.

Record ReaderObj := mkReader {
  state : ParserState;
  fields : list string;   (* fields saved for the current record *)
  field : string;         (* the field being collected *)
  field_len : N
}.

Definition delimiter : ascii := ","%char.
Definition quotechar : ascii := "034"%char.
Definition field_limit : N := 131072.

(** The messages of [csv.Error]. *)
Definition err_field_limit : string := "field larger than field limit (131072)".
Definition err_null_byte : string := "line contains NULL byte".
Definition err_newline : string :=
  "new-line character seen in unquoted field - do you need to open the file in universal-newline mode?".

Definition parse_reset : ReaderObj :=
  mkReader START_RECORD [] "" 0.

Definition set_state (r : ReaderObj) (s : ParserState) : ReaderObj :=
  mkReader s (fields r) (field r) (field_len r).

Definition parse_save_field (r : ReaderObj) : ReaderObj :=
  mkReader (state r) (fields r ++ [field r]) "" 0.

Definition parse_add_char (r : ReaderObj) (c : ascii) : string + ReaderObj :=
  if (field_limit <=? field_len r)%N then inl err_field_limit
  else inr (mkReader (state r) (fields r) (snoc (field r) c) (field_len r + 1)).

Definition is_eol (c : ascii) : bool :=
  (c =? LF)%char || (c =? CR)%char || (c =? NUL)%char.

Definition after_eol (c : ascii) : ParserState :=
  if (c =? NUL)%char then START_RECORD else EAT_CRNL.

Definition start_field (r : ReaderObj) (c : ascii) : string + ReaderObj :=
  if is_eol c then inr (set_state (parse_save_field r) (after_eol c))
  else if (c =? quotechar)%char then inr (set_state r IN_QUOTED_FIELD)
  else if (c =? delimiter)%char then inr (parse_save_field r)
  else match parse_add_char r c with
       | inl e => inl e
       | inr r' => inr (set_state r' IN_FIELD)
       end.

Definition parse_process_char (r : ReaderObj) (c : ascii) : string + ReaderObj :=
  match state r with
  | START_RECORD =>
      if (c =? NUL)%char then inr r
      else if is_linebreak c then inr (set_state r EAT_CRNL)
      else start_field (set_state r START_FIELD) c
  | START_FIELD => start_field r c
  | IN_FIELD =>
      if is_eol c then inr (set_state (parse_save_field r) (after_eol c))
      else if (c =? delimiter)%char
      then inr (set_state (parse_save_field r) START_FIELD)
      else parse_add_char r c
  | IN_QUOTED_FIELD =>
      if (c =? NUL)%char then inr r
      else if (c =? quotechar)%char then inr (set_state r QUOTE_IN_QUOTED_FIELD)
      else parse_add_char r c
  | QUOTE_IN_QUOTED_FIELD =>
      if (c =? quotechar)%char then
        match parse_add_char r c with
        | inl e => inl e
        | inr r' => inr (set_state r' IN_QUOTED_FIELD)
        end
      else if (c =? delimiter)%char
      then inr (set_state (parse_save_field r) START_FIELD)
      else if is_eol c then inr (set_state (parse_save_field r) (after_eol c))
      else match parse_add_char r c with
           | inl e => inl e
           | inr r' => inr (set_state r' IN_FIELD)
           end
  | EAT_CRNL =>
      if is_linebreak c then inr r
      else if (c =? NUL)%char then inr (set_state r START_RECORD)
      else inl err_newline
  end.

(** The inner loop of [Reader_iternext] over the characters of one input
    line, followed by the end-of-line call with character 0. *)
Fixpoint parse_line (r : ReaderObj) (line : string) : string + ReaderObj :=
  match line with
  | EmptyString => parse_process_char r NUL
  | String c rest =>
      if (c =? NUL)%char then inl err_null_byte
      else match parse_process_char r c with
           | inl e => inl e
           | inr r' => parse_line r' rest
           end
  end.

(** The records the reader yields over the input lines, in order, and the
    [csv.Error] that ends the iteration early, if any.  [r] is the parser
    in the middle of the record being read ([parse_reset] at the start
    of a record). *)
Fixpoint iternext (r : ReaderObj) (lines : list string)
  : list (list string) * option string :=
  match lines with
  | [] =>
      if negb (field_len r =? 0)%N || ParserState_eqb (state r) IN_QUOTED_FIELD
      then ([fields (parse_save_field r)], None)
      else ([], None)
  | line :: rest =>
      match parse_line r line with
      | inl e => ([], Some e)
      | inr r' =>
          if ParserState_eqb (state r') START_RECORD
          then let (recs, e) := iternext parse_reset rest in
               (fields r' :: recs, e)
          else iternext r' rest
      end
  end.

Definition reader (rows : list string) : list (list string) * option string :=
  iternext parse_reset rows.

End Csv.

(** ** urllib: percent-decoding and percent-encoding of byte strings *)

Module Urllib.

Import Bytes.

Definition in_range (lo hi c : ascii) : bool :=
  (N_of_ascii lo <=? N_of_ascii c)%N && (N_of_ascii c <=? N_of_ascii hi)%N.

(** The value of a character of [_hexdig = '0123456789ABCDEFabcdef']. *)
Definition hexdig_value (c : ascii) : option N :=
  if in_range "0" "9" c then Some (N_of_ascii c - 48)%N
  else if in_range "A" "F" c then Some (N_of_ascii c - 55)%N
  else if in_range "a" "f" c then Some (N_of_ascii c - 87)%N
  else None.

(** [_hextochr[a + b]]: [None] stands for the KeyError. *)
Definition hextochr (a b : ascii) : option ascii :=
  match hexdig_value a, hexdig_value b with
  | Some x, Some y => Some (ascii_of_N (16 * x + y))
  | _, _ => None
  end.

(** One pass of the loop of [unquote] over a piece that followed a [%]. *)
Definition unquote_item (item : string) : string :=
  match item with
  | String a (String b rest) =>
      match hextochr a b with
      | Some c => String c rest
      | None => String "%" item
      end
  | _ => String "%" item
  end.

(** [urllib.unquote(s)] for a byte string [s]. *)
Definition unquote (s : string) : string :=
  match split "%" s with
  | [] => s
  | [_] => s
  | bit0 :: items => (bit0 ++ String.concat "" (map unquote_item items))%string
  end.

(** [always_safe]: the characters [quote] never escapes. *)
Definition always_safe (c : ascii) : bool :=
  in_range "A" "Z" c || in_range "a" "z" c || in_range "0" "9" c
  || (c =? "_")%char || (c =? ".")%char || (c =? "-")%char.

Definition hexdigit_upper (n : N) : ascii :=
  if (n <? 10)%N then ascii_of_N (48 + n) else ascii_of_N (55 + n).

(** ['%{:02X}'.format(ord(c))] *)
Definition percent_escape (c : ascii) : string :=
  String "%" (String (hexdigit_upper (N_of_ascii c / 16))
             (String (hexdigit_upper (N_of_ascii c mod 16)) "")).

(** [urllib.quote(s, safe='')]: every byte outside [always_safe] becomes
    an upper-case escape. *)
Fixpoint quote (s : string) : string :=
  match s with
  | EmptyString => ""
  | String c rest =>
      if always_safe c then String c (quote rest)
      else (percent_escape c ++ quote rest)%string
  end.

Definition is_hexdig (c : ascii) : bool :=
  match hexdig_value c with
  | Some _ => true
  | None => false
  end.

Definition is_upper_hexdig (c : ascii) : bool :=
  in_range "0" "9" c || in_range "A" "F" c.

(** A percent-encoded field is well formed when every [%] is followed
    by two hexadecimal digits. *)
Fixpoint well_formed (x : string) : bool :=
  match x with
  | EmptyString => true
  | String c rest =>
      if (c =? "%")%char then
        match rest with
        | String a (String b rest') =>
            is_hexdig a && is_hexdig b && well_formed rest'
        | _ => false
        end
      else well_formed rest
  end.

(** It is canonical when, moreover, the characters written literally are
    those of [always_safe] and every escape has upper-case digits and
    stands for a byte outside [always_safe]. *)
Fixpoint canonical (x : string) : bool :=
  match x with
  | EmptyString => true
  | String c rest =>
      if (c =? "%")%char then
        match rest with
        | String a (String b rest') =>
            is_upper_hexdig a && is_upper_hexdig b
            && match hextochr a b with
               | Some ch => negb (always_safe ch)
               | None => false
               end
            && canonical rest'
        | _ => false
        end
      else always_safe c && canonical rest
  end.

End Urllib.

(** ** The UTF-8 codec of Python 2.7 (UCS-4 build)

    [unicode] objects are sequences of code points.  The decoder accepts
    the encodings of surrogate code points, and the encoder joins a high
    surrogate followed by a low one into a single four-byte sequence, as
    Objects/unicodeobject.c does. *)

Module Utf8.

Definition unicode := list N.

Definition byte (n : N) : ascii := ascii_of_N n.
Definition ord (c : ascii) : N := N_of_ascii c.

(** A [str] literal read as text (the characters are code points below
    256; for ASCII literals this is the implicit conversion Python 2
    applies when comparing [str] and [unicode]). *)
Fixpoint of_str (s : string) : unicode :=
  match s with
  | EmptyString => []
  | String c rest => ord c :: of_str rest
  end.

Definition encode3 (ch : N) : string :=
  String (byte (N.lor 0xe0 (N.shiftr ch 12)))
 (String (byte (N.lor 0x80 (N.land (N.shiftr ch 6) 0x3f)))
 (String (byte (N.lor 0x80 (N.land ch 0x3f))) "")).

Definition encode4 (ch : N) : string :=
  String (byte (N.lor 0xf0 (N.shiftr ch 18)))
 (String (byte (N.lor 0x80 (N.land (N.shiftr ch 12) 0x3f)))
 (String (byte (N.lor 0x80 (N.land (N.shiftr ch 6) 0x3f)))
 (String (byte (N.lor 0x80 (N.land ch 0x3f))) ""))).

Definition is_high_surrogate (ch : N) : bool := (0xD800 <=? ch)%N && (ch <=? 0xDBFF)%N.
Definition is_low_surrogate (ch : N) : bool := (0xDC00 <=? ch)%N && (ch <=? 0xDFFF)%N.

(** [u.encode('utf-8')] *)
Fixpoint encode (u : unicode) : string :=
  match u with
  | [] => ""
  | ch :: rest =>
      if (ch <? 0x80)%N then String (byte ch) (encode rest)
      else if (ch <? 0x800)%N then
        String (byte (N.lor 0xc0 (N.shiftr ch 6)))
       (String (byte (N.lor 0x80 (N.land ch 0x3f))) (encode rest))
      else if (ch <? 0x10000)%N then
        match rest with
        | ch2 :: rest2 =>
            if is_high_surrogate ch && is_low_surrogate ch2 then
              (encode4 (N.lor (N.shiftl (ch - 0xD800) 10) (ch2 - 0xDC00) + 0x10000)
                 ++ encode rest2)%string
            else (encode3 ch ++ encode rest)%string
        | [] => (encode3 ch ++ encode rest)%string
        end
      else (encode4 ch ++ encode rest)%string
  end.

(** The table [utf8_code_length], indexed by the first byte. *)
Definition utf8_code_length (b : N) : N :=
  if (b <? 0x80)%N then 1
  else if (b <? 0xC2)%N then 0
  else if (b <? 0xE0)%N then 2
  else if (b <? 0xF0)%N then 3
  else if (b <? 0xF5)%N then 4
  else 0.

Definition is_cont (c : ascii) : bool := (N.land (ord c) 0xc0 =? 0x80)%N.

Definition invalid_start : string := "invalid start byte".
Definition invalid_continuation : string := "invalid continuation byte".
Definition unexpected_end : string := "unexpected end of data".

Definition cons_ok (ch : N) (r : string + unicode) : string + unicode :=
  match r with
  | inl e => inl e
  | inr u => inr (ch :: u)
  end.

(** The code points of the sequences of two, three and four bytes. *)
Definition ch2 (c0 c1 : ascii) : N :=
  N.shiftl (N.land (ord c0) 0x1f) 6 + N.land (ord c1) 0x3f.

Definition ch3 (c0 c1 c2 : ascii) : N :=
  N.shiftl (N.land (ord c0) 0x0f) 12
  + N.shiftl (N.land (ord c1) 0x3f) 6
  + N.land (ord c2) 0x3f.

Definition ch4 (c0 c1 c2 c3 : ascii) : N :=
  N.shiftl (N.land (ord c0) 0x7) 18
  + N.shiftl (N.land (ord c1) 0x3f) 12
  + N.shiftl (N.land (ord c2) 0x3f) 6
  + N.land (ord c3) 0x3f.

(** The tests that reject a sequence of three or four bytes. *)
Definition bad3 (c0 c1 c2 : ascii) : bool :=
  negb (is_cont c1) || negb (is_cont c2)
  || ((ord c0 =? 0xE0)%N && (ord c1 <? 0xA0)%N).

Definition bad4 (c0 c1 c2 c3 : ascii) : bool :=
  negb (is_cont c1) || negb (is_cont c2) || negb (is_cont c3)
  || ((ord c0 =? 0xF0)%N && (ord c1 <? 0x90)%N)
  || ((ord c0 =? 0xF4)%N && (0x8F <? ord c1)%N).

(** [s.decode('utf-8')] with strict error handling; [inl reason] is the
    UnicodeDecodeError. *)
Fixpoint decode (s : string) : string + unicode :=
  match s with
  | EmptyString => inr []
  | String c0 rest =>
      match utf8_code_length (ord c0) with
      | 1%N => cons_ok (ord c0) (decode rest)
      | 2%N =>
          match rest with
          | String c1 rest2 =>
              if negb (is_cont c1) then inl invalid_continuation
              else cons_ok (ch2 c0 c1) (decode rest2)
          | _ => inl unexpected_end
          end
      | 3%N =>
          match rest with
          | String c1 (String c2 rest3) =>
              if bad3 c0 c1 c2 then inl invalid_continuation
              else cons_ok (ch3 c0 c1 c2) (decode rest3)
          | _ => inl unexpected_end
          end
      | 4%N =>
          match rest with
          | String c1 (String c2 (String c3 rest4)) =>
              if bad4 c0 c1 c2 c3 then inl invalid_continuation
              else cons_ok (ch4 c0 c1 c2 c3) (decode rest4)
          | _ => inl unexpected_end
          end
      | _ => inl invalid_start
      end
  end.

(** Text without surrogate code points. *)
Definition no_surrogates (u : unicode) : bool :=
  forallb (fun ch => negb (is_high_surrogate ch || is_low_surrogate ch)) u.

End Utf8.

(** ** Python values, exceptions and effects *)

(** The values an offset or a record identifier takes: [None], an
    integer (the default offset is [0]) or a byte string. *)
Inductive pyval :=
| PyNone
| PyInt (z : Z)
| PyStr (s : string).

(** Truth value testing ([if not offset]). *)
Definition truthy (v : pyval) : bool :=
  match v with
  | PyNone => false
  | PyInt z => negb (z =? 0)%Z
  | PyStr s => negb (s =? "")%string
  end.

(** Exceptions of the interpreter and of the libraries. *)
Inductive pyerr :=
| IndexError
| UnicodeDecodeError (reason : string)
| CsvError (reason : string)
| RequestException (reason : string).

(** ['...'.format(args)] is kept as the template of the source with its
    arguments. *)
Inductive fmt_arg :=
| FVal (v : pyval)
| FList (l : list string)
| FHeaders (h : list (string * string))
| FExcInfo (e : pyerr).

Inductive message :=
| Format (template : string) (args : list fmt_arg).

(** What an exception is constructed from: [None] or a formatted text. *)
Inductive pyobj :=
| ObjNone
| ObjText (m : message).

Inductive exn :=
| FetchException (arg : pyobj)
| Builtin (e : pyerr).

Inductive level := DEBUG | INFO | ERROR.

Record Request := mkRequest {
  req_url : string;
  req_timeout : Z;
  req_params : list (string * pyval);
  req_auth : string * string
}.

Record Response := mkResponse {
  status_code : Z;
  text : Utf8.unicode;
  headers : list (string * string)
}.

(** [response.ok]: [raise_for_status] raises for 4xx and 5xx. *)
Definition ok (r : Response) : bool :=
  negb ((400 <=? status_code r)%Z && (status_code r <? 600)%Z).

(** The effects of a call: the records handed to [logging] and the
    requests put on the wire, oldest first. *)
Record World := mkWorld {
  log : list (level * message);
  wire : list Request
}.

Definition initial : World := mkWorld [] [].

Inductive outcome (A : Type) :=
| Returns (a : A)
| Raises (e : exn).
Arguments Returns {A} a.
Arguments Raises {A} e.

Definition M (A : Type) : Type := World -> outcome A * World.

Definition ret {A} (a : A) : M A := fun w => (Returns a, w).
Definition raise {A} (e : exn) : M A := fun w => (Raises e, w).
Definition bind {A B} (m : M A) (k : A -> M B) : M B :=
  fun w => match m w with
           | (Returns a, w') => k a w'
           | (Raises e, w') => (Raises e, w')
           end.

Notation "x <- m ;; k" := (bind m (fun x => k))
  (at level 61, m at next level, right associativity).
Notation "m ;;; k" := (bind m (fun _ => k))
  (at level 61, right associativity).

(** A library call that returns or raises. *)
Definition lift {A} (r : pyerr + A) : M A :=
  match r with
  | inl e => raise (Builtin e)
  | inr a => ret a
  end.

(** [logging.debug], [logging.info], [logging.error]: each returns [None]. *)
Definition logging (l : level) (m : message) : M pyobj :=
  fun w => (Returns ObjNone, mkWorld (log w ++ [(l, m)]) (wire w)).

(** [l[i]] *)
Definition index {A} (l : list A) (i : nat) : pyerr + A :=
  match nth_error l i with
  | Some x => inr x
  | None => inl IndexError
  end.

(** ** models.Phish and the configuration *)

Record Phish := mkPhish {
  pid : pyval;
  url : Utf8.unicode;
  feed : string;
  submission_time : string;
  verify_time : string
}.

(** The class methods of [models.Phish] the feed calls: the store of
    known records and the URL normalisation. *)
Record PhishStore := mkStore {
  exists_ : Utf8.unicode -> bool;
  clean_url : Utf8.unicode -> Utf8.unicode;
  get_most_recent : string -> option Phish
}.

(** [config['phishtank']] *)
Record Config := mkConfig {
  cfg_url : string;
  cfg_last_seen : pyval;
  cfg_username : string;
  cfg_password : string
}.

Record PhishtankFeed := mkFeed {
  self_feed : string;
  self_url : string;
  self_last_seen : pyval;
  self_username : string;
  self_password : string
}.

Definition __init__ (config : Config) : PhishtankFeed :=
  mkFeed "phishtank" (cfg_url config) (cfg_last_seen config)
         (cfg_username config) (cfg_password config).

Definition unicode_eq_dec : forall u v : Utf8.unicode, {u = v} + {u <> v} :=
  list_eq_dec N.eq_dec.

(** [x in l] *)
Definition contains (x : Utf8.unicode) (l : list Utf8.unicode) : bool :=
  if in_dec unicode_eq_dec x l then true else false.

(** ** PhishtankFeed *)

Section Feed.

Variable store : PhishStore.

(** [requests.get(url, timeout, params, auth)]: the response of the
    server, or the exception of the transport. *)
Variable requests_get : Request -> pyerr + Response.

(** The body of the [try] block of [_process_rows]. *)
Definition extract (record : list string)
  : pyerr + (Utf8.unicode * string * string) :=
  match index record 1 with
  | inl e => inl e
  | inr field1 =>
      match Utf8.decode (Urllib.unquote field1) with
      | inl reason => inl (UnicodeDecodeError reason)
      | inr url =>
          match index record 3 with
          | inl e => inl e
          | inr submission_time =>
              match index record 5 with
              | inl e => inl e
              | inr verify_time => inr (url, submission_time, verify_time)
              end
          end
      end
  end.

(** The [for record in reader] loop: [records] are the records the
    reader still yields and [stop] the [csv.Error] it raises after them,
    if any. *)
Fixpoint for_records (self : PhishtankFeed) (records : list (list string))
    (stop : option string) (entries : list Phish)
    (urls_seen : list Utf8.unicode) : M (list Phish) :=
  match records with
  | [] =>
      match stop with
      | Some reason => raise (Builtin (CsvError reason))
      | None => ret entries
      end
  | record :: more =>
      logging DEBUG (Format "csv record: {}" [FList record]) ;;;
      pid <- lift (index record 0) ;;
      match extract record with
      | inl e =>
          logging ERROR
            (Format "cannot extract csv record: {}\nerror: {}"
                    [FVal (PyStr (String.concat ", " record)); FExcInfo e]) ;;;
          for_records self more stop entries urls_seen
      | inr (url, submission_time, verify_time) =>
          if exists_ store url || contains (clean_url store url) urls_seen
          then for_records self more stop entries urls_seen
          else for_records self more stop
                 (entries ++ [mkPhish (PyStr pid) url (self_feed self)
                                      submission_time verify_time])
                 (urls_seen ++ [clean_url store url])
      end
  end.

Definition _process_rows (self : PhishtankFeed) (rows : list string)
  : M (list Phish) :=
  let (records, stop) := Csv.reader rows in
  entries <- for_records self records stop [] [] ;;
  logging INFO (Format "processed {} CSV entries"
                       [FVal (PyInt (Z.of_nat (List.length entries)))]) ;;;
  ret entries.

(** The call [requests.get(self.url, timeout=5, params=params, auth=...)]. *)
Definition send (r : Request) : M Response :=
  fun w =>
    let w' := mkWorld (log w) (wire w ++ [r]) in
    match requests_get r with
    | inl e => (Raises (Builtin e), w')
    | inr response => (Returns response, w')
    end.

Definition get (self : PhishtankFeed) (offset : pyval) : M (list Phish) :=
  offset <- (if negb (truthy offset) then
               match get_most_recent store "phishtank" with
               | Some most_recent_phish => ret (pid most_recent_phish)
               | None => ret (self_last_seen self)
               end
             else ret offset) ;;
  logging INFO (Format "Fetching {} feed with last offset: {}"
                       [FVal (PyStr (self_feed self)); FVal offset]) ;;;
  let results : list Phish := [] in
  let params := [("last", offset)] in
  response <- send (mkRequest (self_url self) 5 params
                              (self_username self, self_password self)) ;;
  logging DEBUG (Format "Status: {}\nResponse Headers: {}"
                        [FVal (PyInt (status_code response));
                         FHeaders (headers response)]) ;;;
  if negb (ok response) then
    let response_txt :=
      if (status_code response =? 404)%Z then ""
      else Utf8.encode (text response) in
    r <- logging ERROR
           (Format "Error fetching response:\nStatus: {}\nResponse:{}\nResponse Headers:{}"
                   [FVal (PyInt (status_code response));
                    FVal (PyStr response_txt);
                    FHeaders (headers response)]) ;;
    raise (FetchException r)
  else
    let entries := Bytes.splitlines (Utf8.encode (text response)) in
    if match entries with [] => true | _ => false end
       || (List.length entries <? 1)%nat
    then raise (FetchException
                  (ObjText (Format "Error fetching response: Invalid response received: {}"
                                   [FList entries])))
    else if (List.length entries =? 1)%nat then ret results
    else
      max_id <- (line1 <- lift (index entries 1) ;;
                 lift (index (Bytes.split "," line1) 0)) ;;
      results <- _process_rows self (skipn 1 entries) ;;
      ret results.

(** [get] without the computation of [max_id] (line 105 removed). *)
Definition get_without_max_id (self : PhishtankFeed) (offset : pyval)
  : M (list Phish) :=
  offset <- (if negb (truthy offset) then
               match get_most_recent store "phishtank" with
               | Some most_recent_phish => ret (pid most_recent_phish)
               | None => ret (self_last_seen self)
               end
             else ret offset) ;;
  logging INFO (Format "Fetching {} feed with last offset: {}"
                       [FVal (PyStr (self_feed self)); FVal offset]) ;;;
  let results : list Phish := [] in
  let params := [("last", offset)] in
  response <- send (mkRequest (self_url self) 5 params
                              (self_username self, self_password self)) ;;
  logging DEBUG (Format "Status: {}\nResponse Headers: {}"
                        [FVal (PyInt (status_code response));
                         FHeaders (headers response)]) ;;;
  if negb (ok response) then
    let response_txt :=
      if (status_code response =? 404)%Z then ""
      else Utf8.encode (text response) in
    r <- logging ERROR
           (Format "Error fetching response:\nStatus: {}\nResponse:{}\nResponse Headers:{}"
                   [FVal (PyInt (status_code response));
                    FVal (PyStr response_txt);
                    FHeaders (headers response)]) ;;
    raise (FetchException r)
  else
    let entries := Bytes.splitlines (Utf8.encode (text response)) in
    if match entries with [] => true | _ => false end
       || (List.length entries <? 1)%nat
    then raise (FetchException
                  (ObjText (Format "Error fetching response: Invalid response received: {}"
                                   [FList entries])))
    else if (List.length entries =? 1)%nat then ret results
    else
      results <- _process_rows self (skipn 1 entries) ;;
      ret results.

End Feed.

(** ** Notions the properties are stated with *)

(** The offset the resolver is specified to produce: the offset of the
    caller when it is non-empty, otherwise the identifier of the most
    recent record of the feed, otherwise the configured fallback. *)
Definition resolve_offset_spec (store : PhishStore) (self : PhishtankFeed)
    (offset : pyval) : pyval :=
  if truthy offset then offset
  else match get_most_recent store "phishtank" with
       | Some record => pid record
       | None => self_last_seen self
       end.

(** The request that carries the offset [last]. *)
Definition request_with (self : PhishtankFeed) (last : pyval) : Request :=
  mkRequest (self_url self) 5 [("last", last)]
            (self_username self, self_password self).

(** A computation that puts nothing on the wire. *)
Definition silent {A} (m : M A) : Prop :=
  forall w, wire (snd (m w)) = wire w.

(** The normalised URL of an entry. *)
Definition normalized (store : PhishStore) (e : Phish) : Utf8.unicode :=
  clean_url store (url e).

(** The entry a record stands for, when its fields can be extracted. *)
Definition entry_of (self : PhishtankFeed) (record : list string) : option Phish :=
  match index record 0, extract record with
  | inr pid, inr (url, submission_time, verify_time) =>
      Some (mkPhish (PyStr pid) url (self_feed self) submission_time verify_time)
  | _, _ => None
  end.

(** What the loop of [_process_rows] returns or raises, without its
    log records. *)
Fixpoint loop_outcome (store : PhishStore) (self : PhishtankFeed)
    (records : list (list string)) (stop : option string)
    (entries : list Phish) (urls_seen : list Utf8.unicode)
  : outcome (list Phish) :=
  match records with
  | [] =>
      match stop with
      | Some reason => Raises (Builtin (CsvError reason))
      | None => Returns entries
      end
  | record :: more =>
      match index record 0 with
      | inl e => Raises (Builtin e)
      | inr pid =>
          match extract record with
          | inl _ => loop_outcome store self more stop entries urls_seen
          | inr (url, submission_time, verify_time) =>
              if exists_ store url || contains (clean_url store url) urls_seen
              then loop_outcome store self more stop entries urls_seen
              else loop_outcome store self more stop
                     (entries ++ [mkPhish (PyStr pid) url (self_feed self)
                                          submission_time verify_time])
                     (urls_seen ++ [clean_url store url])
          end
      end
  end.

(** A row the loop may keep: its fields can be extracted and the store
    does not know its URL. *)
Definition candidate (store : PhishStore) (self : PhishtankFeed)
    (record : list string) (e : Phish) : Prop :=
  entry_of self record = Some e /\ exists_ store (url e) = false.

(** No candidate among the records [before] has the normalised URL of [e]. *)
Definition first_of_its_url (store : PhishStore) (self : PhishtankFeed)
    (before : list (list string)) (e : Phish) : Prop :=
  forall record' e',
    In record' before -> candidate store self record' e' ->
    normalized store e' <> normalized store e.

(** Percent-encoding of a URL text: [urllib.quote(u.encode('utf-8'), safe='')]. *)
Definition percent_encode (u : Utf8.unicode) : string :=
  Urllib.quote (Utf8.encode u).

(** All the 256 characters, and a test over them. *)
Definition all_ascii : list ascii := map ascii_of_nat (seq 0 256).

Definition forall_ascii (P : ascii -> bool) : bool := forallb P all_ascii.

(** The row of the example with lower-case escapes in its URL field. *)
Definition lowercase_row : string :=
  "101,http%3a%2f%2fevil.example%2fa,ignored,2024-01-01T00:00:00Z,ignored,2024-01-02T00:00:00Z".

(** The field of the example with lower-case escapes. *)
Definition lowercase_field : string := "http%3a%2f%2fevil.example%2fa".

(** A store that knows no URL and normalises nothing. *)
Definition empty_store : PhishStore :=
  mkStore (fun _ => false) (fun u => u) (fun _ => None).

(** A server that answers every request with [r]. *)
Definition serve (r : Response) : Request -> pyerr + Response :=
  fun _ => inr r.

Definition sample_config : Config :=
  mkConfig "https://feed.example/catalog" (PyStr "1000") "user" "secret".

Definition sample_feed : PhishtankFeed := __init__ sample_config.

(** A normalisation that drops one trailing slash. *)
Definition strip_slash (u : Utf8.unicode) : Utf8.unicode :=
  match rev u with
  | 47%N :: r => rev r
  | _ => u
  end.

Definition known_url : Utf8.unicode := Utf8.of_str "http://evil.example/a/".

(** A store that knows one URL and normalises with [strip_slash]. *)
Definition slash_store : PhishStore :=
  mkStore (fun u => if unicode_eq_dec u known_url then true else false)
          strip_slash (fun _ => None).

Definition known_row : string :=
  "100,http%3A%2F%2Fevil.example%2Fa%2F,ignored,2023-12-31T00:00:00Z,ignored,2023-12-31T12:00:00Z".

Definition known_entry : Phish :=
  mkPhish (PyStr "100") known_url "phishtank"
          "2023-12-31T00:00:00Z" "2023-12-31T12:00:00Z".

(** A row with the URL of the example and too few columns. *)
Definition short_row : string := "100,http%3A%2F%2Fevil.example%2Fa".

Definition nl : string := String Bytes.LF "".

Definition sample_row : string :=
  "101,http%3A%2F%2Fevil.example%2Fa,ignored,2024-01-01T00:00:00Z,ignored,2024-01-02T00:00:00Z".

(** The response body of the example of the specification. *)
Definition sample_body : string := ("header" ++ nl ++ sample_row ++ nl)%string.

Definition sample_entry : Phish :=
  mkPhish (PyStr "101") (Utf8.of_str "http://evil.example/a") "phishtank"
          "2024-01-01T00:00:00Z" "2024-01-02T00:00:00Z".

(** ** Notions for the behaviour of the loop and of the rows *)

(** [l1] is [l2] with some elements left out, the order kept. *)
Inductive subseq {A : Type} : list A -> list A -> Prop :=
| subseq_nil : subseq [] []
| subseq_skip (x : A) (l1 l2 : list A) : subseq l1 l2 -> subseq l1 (x :: l2)
| subseq_keep (x : A) (l1 l2 : list A) : subseq l1 l2 -> subseq (x :: l1) (x :: l2).

(** The entries of the records whose fields can be extracted, in the
    order of the records. *)
Definition entries_of (self : PhishtankFeed) (records : list (list string))
  : list Phish :=
  flat_map (fun record => match entry_of self record with
                          | Some e => [e]
                          | None => []
                          end) records.

(** What the loop hands to [logging] for one record. *)
Definition row_log (record : list string) : list (level * message) :=
  (DEBUG, Format "csv record: {}" [FList record])
  :: match extract record with
     | inl e => [(ERROR, Format "cannot extract csv record: {}\nerror: {}"
                                [FVal (PyStr (String.concat ", " record));
                                 FExcInfo e])]
     | inr _ => []
     end.

(** A row without quote character, NUL or line break, short enough for
    the field limit of the csv module. *)
Definition plain_char (c : ascii) : bool :=
  negb ((c =? Csv.quotechar)%char || (c =? Bytes.NUL)%char || Bytes.is_linebreak c).

Fixpoint plain_chars (line : string) : bool :=
  match line with
  | EmptyString => true
  | String c rest => plain_char c && plain_chars rest
  end.

Definition plain_row (line : string) : bool :=
  plain_chars line && (N.of_nat (String.length line) <=? Csv.field_limit)%N.

(** The record of a plain row: no field for the empty row, else the
    pieces between the commas. *)
Definition record_of_line (line : string) : list string :=
  if (line =? "")%string then [] else Bytes.split "," line.

(** Bytes without quote character and without NUL. *)
Fixpoint no_quote_nul (b : string) : bool :=
  match b with
  | EmptyString => true
  | String c rest =>
      negb ((c =? Csv.quotechar)%char || (c =? Bytes.NUL)%char)
      && no_quote_nul rest
  end.

(** [f] put before the first piece of a split. *)
Definition prepend (f : string) (pieces : list string) : list string :=
  match pieces with
  | [] => [f]
  | p :: ps => (f ++ p)%string :: ps
  end.

(** A field of ASCII characters without [%]. *)
Fixpoint ascii_no_percent (x : string) : bool :=
  match x with
  | EmptyString => true
  | String c rest =>
      negb (c =? "%")%char && (Utf8.ord c <? 0x80)%N && ascii_no_percent rest
  end.

(** Text of Unicode scalar values: code points up to 10FFFF that are no
    surrogates. *)
Definition scalar_value (ch : N) : bool :=
  (ch <=? 0x10FFFF)%N
  && negb (Utf8.is_high_surrogate ch || Utf8.is_low_surrogate ch).

Definition scalar_text (u : Utf8.unicode) : bool := forallb scalar_value u.

Example splitlines_ex :
  Bytes.splitlines ("header" ++ String Bytes.LF ("a,b" ++ String Bytes.LF ""))%string
  = ["header"; "a,b"].
Proof. reflexivity. Qed.

Example reader_ex :
  Csv.reader
    [("101," ++ String Csv.quotechar ("a,b" ++ String Csv.quotechar ",c"))%string; ""; "x"]
  = ([["101"; "a,b"; "c"]; []; ["x"]], None).
Proof. reflexivity. Qed.

Example unquote_ex :
  Urllib.unquote "http%3A%2F%2Fevil.example%2Fa%zz%4" = "http://evil.example/a%zz%4".
Proof. reflexivity. Qed.

Example quote_ex :
  Urllib.quote "http://evil.example/a" = "http%3A%2F%2Fevil.example%2Fa".
Proof. reflexivity. Qed.

Example utf8_ex :
  Utf8.decode (Utf8.encode [0x41; 0xE9; 0x20AC; 0x1F600; 0xD800]%N)
  = inr [0x41; 0xE9; 0x20AC; 0x1F600; 0xD800]%N.
Proof. reflexivity. Qed.

(** ** The effect monad *)

Lemma bind_ret {A B} (a : A) (k : A -> M B) (w : World) :
  bind (ret a) k w = k a w.
Proof. reflexivity. Qed.

Lemma bind_ext {A B} (m : M A) (k1 k2 : A -> M B) (w : World) :
  (forall a w', k1 a w' = k2 a w') -> bind m k1 w = bind m k2 w.
Proof.
  intros H. unfold bind. destruct (m w) as [[a|e] w']; [apply H | reflexivity].
Qed.

Lemma silent_ret {A} (a : A) : silent (ret a).
Proof. intros w. reflexivity. Qed.

Lemma silent_raise {A} (e : exn) : silent (@raise A e).
Proof. intros w. reflexivity. Qed.

Lemma silent_lift {A} (r : pyerr + A) : silent (lift r).
Proof. destruct r; intros w; reflexivity. Qed.

Lemma silent_logging (l : level) (m : message) : silent (logging l m).
Proof. intros w. reflexivity. Qed.

Lemma silent_bind {A B} (m : M A) (k : A -> M B) :
  silent m -> (forall a, silent (k a)) -> silent (bind m k).
Proof.
  intros Hm Hk w. unfold bind. specialize (Hm w).
  destruct (m w) as [[a|e] w']; simpl in *.
  - rewrite Hk. exact Hm.
  - exact Hm.
Qed.

Create HintDb silent.
#[export] Hint Resolve silent_ret silent_raise silent_lift silent_logging : silent.

Lemma silent_for_records store self records stop :
  forall entries urls_seen,
    silent (for_records store self records stop entries urls_seen).
Proof.
  induction records as [|record more IH]; intros entries urls_seen; simpl.
  - destruct stop; auto with silent.
  - apply silent_bind; [auto with silent|]. intros _.
    apply silent_bind; [auto with silent|]. intros p.
    destruct (extract record) as [e|[[u st] vt]].
    + apply silent_bind; [auto with silent|]. intros _. apply IH.
    + destruct (exists_ store u || contains (clean_url store u) urls_seen); apply IH.
Qed.

Lemma silent_process_rows store self rows : silent (_process_rows store self rows).
Proof.
  unfold _process_rows. destruct (Csv.reader rows) as [records stop].
  apply silent_bind; [apply silent_for_records|]. intros entries.
  apply silent_bind; auto with silent.
Qed.

(** ** The offset resolver *)

Lemma resolve_phase store self offset :
  (if negb (truthy offset)
   then match get_most_recent store "phishtank" with
        | Some most_recent_phish => ret (pid most_recent_phish)
        | None => ret (self_last_seen self)
        end
   else ret offset)
  = ret (resolve_offset_spec store self offset).
Proof.
  unfold resolve_offset_spec.
  destruct (truthy offset); simpl; [reflexivity|].
  destruct (get_most_recent store "phishtank"); reflexivity.
Qed.

Lemma falsy_inv (v : pyval) :
  truthy v = false <-> v = PyNone \/ v = PyInt 0 \/ v = PyStr "".
Proof.
  split.
  - destruct v as [|z|s]; simpl; intros H.
    + now left.
    + right; left. apply negb_false_iff, Z.eqb_eq in H. now subst.
    + right; right. apply negb_false_iff, String.eqb_eq in H. now subst.
  - intros [->|[->| ->]]; reflexivity.
Qed.

(** [get] puts exactly one request on the wire, whatever happens
    afterwards. *)
Lemma get_sends store requests_get self offset w :
  wire (snd (get store requests_get self offset w))
  = wire w ++ [request_with self (resolve_offset_spec store self offset)].
Proof.
  unfold get. rewrite resolve_phase, bind_ret.
  set (last := resolve_offset_spec store self offset).
  unfold bind at 1. cbn [logging].
  unfold bind at 1. unfold send at 1. cbn [log wire].
  fold (request_with self last).
  destruct (requests_get (request_with self last)) as [e|response]; [reflexivity|].
  match goal with
  | |- wire (snd (?m ?w0)) = _ =>
      assert (Hs : silent m); [|rewrite (Hs w0); reflexivity]
  end.
  apply silent_bind; [auto with silent|]. intros _.
  destruct (negb (ok response)).
  - apply silent_bind; auto with silent.
  - destruct (_ || _); [auto with silent|].
    destruct (_ =? _)%nat; [auto with silent|].
    apply silent_bind.
    + apply silent_bind; auto with silent.
    + intros _. apply silent_bind; [apply silent_process_rows | auto with silent].
Qed.


(** C4: [get] puts exactly one request on the wire, whatever happens
    afterwards, and its [last] parameter is the caller's offset when that
    is non-empty, else the identifier of the most recent record of the
    store, else the configured [last_seen]; resolving the offset never
    raises. *)
Theorem C4_offset_resolution store requests_get self offset w :
  wire (snd (get store requests_get self offset w))
  = wire w ++ [request_with self
                 (if truthy offset then offset
                  else match get_most_recent store "phishtank" with
                       | Some record => pid record
                       | None => self_last_seen self
                       end)].
Proof. apply get_sends. Qed.

(** C10: a falsy offset ([None], [0] or the empty string) is never sent:
    the request carries the identifier of the most recent record, or
    else the configured [last_seen], and the call is the call with the
    default offset [0]. *)
Theorem C10_falsy_offset_is_no_offset store requests_get self offset w :
  truthy offset = false ->
  get store requests_get self offset w = get store requests_get self (PyInt 0) w
  /\ wire (snd (get store requests_get self offset w))
     = wire w ++ [request_with self
                    match get_most_recent store "phishtank" with
                    | Some record => pid record
                    | None => self_last_seen self
                    end].
Proof.
  intros Hf. split.
  - unfold get. rewrite !resolve_phase. unfold resolve_offset_spec.
    rewrite Hf. reflexivity.
  - rewrite get_sends. unfold resolve_offset_spec. rewrite Hf.
    reflexivity.
Qed.

Lemma C10_falsy_offset_is_no_offset_witness :
  truthy (PyStr "") = false
  /\ get empty_store (serve (mkResponse 200 [] [])) sample_feed (PyStr "") initial
     = get empty_store (serve (mkResponse 200 [] [])) sample_feed (PyInt 0) initial
  /\ wire (snd (get empty_store (serve (mkResponse 200 [] [])) sample_feed
                    (PyStr "") initial))
     = [request_with sample_feed (PyStr "1000")].
Proof.
  split; [reflexivity|].
  exact (C10_falsy_offset_is_no_offset empty_store (serve (mkResponse 200 [] []))
           sample_feed (PyStr "") initial eq_refl).
Defined.

(** ** Validation of the response *)

Ltac after_send Hnet :=
  unfold request_with in Hnet;
  unfold get; rewrite resolve_phase, bind_ret;
  unfold bind at 1; cbn [logging];
  unfold bind at 1; unfold send at 1; cbn [log wire];
  rewrite Hnet;
  unfold bind at 1; cbn [logging log wire].

(** On a response that is not [ok] the exception is built from what
    [logging.error] returns. *)
Lemma get_not_ok store requests_get self offset w response :
  requests_get (request_with self (resolve_offset_spec store self offset))
  = inr response ->
  ok response = false ->
  fst (get store requests_get self offset w) = Raises (FetchException ObjNone).
Proof.
  intros Hnet Hok. after_send Hnet. rewrite Hok. reflexivity.
Qed.

Lemma splitlines_nil (s : string) : Bytes.splitlines s = [] <-> s = "".
Proof.
  split; [|intros ->; reflexivity].
  destruct s as [|c rest]; [reflexivity|]. simpl.
  destruct (Bytes.is_linebreak c); [discriminate|].
  destruct (Bytes.splitlines rest); discriminate.
Qed.

Lemma encode_nil (u : Utf8.unicode) : Utf8.encode u = "" <-> u = [].
Proof.
  split; [|intros ->; reflexivity].
  destruct u as [|ch rest]; [reflexivity|]. cbn [Utf8.encode].
  destruct (ch <? 0x80)%N; [discriminate|].
  destruct (ch <? 0x800)%N; [discriminate|].
  destruct (ch <? 0x10000)%N; [|discriminate].
  destruct rest as [|ch2 rest2]; [discriminate|].
  destruct (_ && _); discriminate.
Qed.

(** C5: a successful response whose body is one line (the header) makes
    [get] return the empty list. *)
Theorem C5_header_only store requests_get self offset w response :
  requests_get (request_with self (resolve_offset_spec store self offset))
  = inr response ->
  ok response = true ->
  List.length (Bytes.splitlines (Utf8.encode (text response))) = 1%nat ->
  fst (get store requests_get self offset w) = Returns [].
Proof.
  intros Hnet Hok Hlen. after_send Hnet. rewrite Hok. cbn [negb].
  destruct (Bytes.splitlines (Utf8.encode (text response))) as [|l0 [|l1 ls]];
    simpl in Hlen; try discriminate.
  reflexivity.
Qed.

Lemma C5_header_only_witness :
  fst (get empty_store (serve (mkResponse 200 (Utf8.of_str "header") []))
           sample_feed (PyInt 0) initial)
  = Returns [].
Proof.
  apply (C5_header_only empty_store
           (serve (mkResponse 200 (Utf8.of_str "header") []))
           sample_feed (PyInt 0) initial
           (mkResponse 200 (Utf8.of_str "header") []));
    reflexivity.
Defined.

(** C6: a successful response whose body is empty, or splits into no
    line, makes [get] raise a [FetchException]. *)
Theorem C6_empty_body store requests_get self offset w response :
  requests_get (request_with self (resolve_offset_spec store self offset))
  = inr response ->
  ok response = true ->
  text response = [] \/ Bytes.splitlines (Utf8.encode (text response)) = [] ->
  fst (get store requests_get self offset w)
  = Raises (FetchException
              (ObjText (Format "Error fetching response: Invalid response received: {}"
                               [FList []]))).
Proof.
  intros Hnet Hok Hempty.
  assert (Hlines : Bytes.splitlines (Utf8.encode (text response)) = []).
  { destruct Hempty as [H|H]; [|exact H]. rewrite H. reflexivity. }
  after_send Hnet. rewrite Hok. cbn [negb]. rewrite Hlines. reflexivity.
Qed.

Lemma C6_empty_body_witness :
  fst (get empty_store (serve (mkResponse 200 [] [])) sample_feed (PyInt 0) initial)
  = Raises (FetchException
              (ObjText (Format "Error fetching response: Invalid response received: {}"
                               [FList []]))).
Proof.
  apply (C6_empty_body empty_store (serve (mkResponse 200 [] []))
           sample_feed (PyInt 0) initial (mkResponse 200 [] []));
    [reflexivity | reflexivity | left; reflexivity].
Defined.

(** ** The unused [max_id] *)

Lemma split_not_nil (sep : ascii) (s : string) : Bytes.split sep s <> [].
Proof.
  destruct s as [|c rest]; simpl; [discriminate|].
  destruct (c =? sep)%char; [discriminate|].
  destruct (Bytes.split sep rest); discriminate.
Qed.

(** The computation of line 105 returns, and leaves the world as it is. *)
Lemma max_id_returns (entries : list string) (w : World) :
  (2 <= List.length entries)%nat ->
  exists max_id,
    (line1 <- lift (index entries 1) ;; lift (index (Bytes.split "," line1) 0)) w
    = (Returns max_id, w).
Proof.
  intros Hlen. destruct entries as [|l0 [|l1 ls]]; simpl in Hlen; try lia.
  unfold index at 1. cbn [nth_error lift]. rewrite bind_ret.
  destruct (Bytes.split "," l1) as [|p ps] eqn:Hs.
  - now apply split_not_nil in Hs.
  - exists p. reflexivity.
Qed.

(** C9: [get] and [get] without the computation of [max_id] have the
    same outcome and the same effects on every input. *)
Theorem C9_max_id_is_dead store requests_get self offset w :
  get store requests_get self offset w
  = get_without_max_id store requests_get self offset w.
Proof.
  unfold get, get_without_max_id.
  apply bind_ext. intros last w1.
  apply bind_ext. intros _ w2.
  apply bind_ext. intros response w3.
  apply bind_ext. intros _ w4.
  destruct (negb (ok response)); [reflexivity|].
  cbv zeta.
  destruct (Bytes.splitlines (Utf8.encode (text response))) as [|l0 [|l1 ls]] eqn:Hl;
    [reflexivity | reflexivity |].
  cbn [orb List.length Nat.ltb Nat.leb Nat.eqb].
  destruct (max_id_returns (l0 :: l1 :: ls) w4) as [max_id Hm];
    [simpl; lia|].
  unfold bind at 1. rewrite Hm. reflexivity.
Qed.

(** ** The row processor without its log *)

Lemma fst_bind {A B} (m : M A) (k : A -> M B) (w : World) :
  fst (bind m k w)
  = match m w with
    | (Returns a, w') => fst (k a w')
    | (Raises e, _) => Raises e
    end.
Proof. unfold bind. destruct (m w) as [[a|e] w']; reflexivity. Qed.

Lemma fst_bind_ret {A} (m : M A) (w : World) :
  fst (bind m (fun a => ret a) w) = fst (m w).
Proof. rewrite fst_bind. destruct (m w) as [[a|e] w']; reflexivity. Qed.

Lemma for_records_outcome store self records stop :
  forall entries urls_seen w,
    fst (for_records store self records stop entries urls_seen w)
    = loop_outcome store self records stop entries urls_seen.
Proof.
  induction records as [|record more IH]; intros entries urls_seen w; simpl.
  - destruct stop; reflexivity.
  - rewrite fst_bind. cbn [logging]. rewrite fst_bind.
    destruct (index record 0) as [e|p]; [reflexivity|]. cbn [lift ret].
    destruct (extract record) as [e|[[u st] vt]].
    + rewrite fst_bind. cbn [logging]. apply IH.
    + destruct (exists_ store u || contains (clean_url store u) urls_seen); apply IH.
Qed.

Lemma process_rows_outcome store self rows w :
  fst (_process_rows store self rows w)
  = loop_outcome store self (fst (Csv.reader rows)) (snd (Csv.reader rows)) [] [].
Proof.
  unfold _process_rows. destruct (Csv.reader rows) as [records stop].
  cbn [fst snd]. rewrite fst_bind.
  pose proof (for_records_outcome store self records stop [] [] w) as H.
  destruct (for_records store self records stop [] [] w) as [[entries|e] w'];
    cbn [fst] in H; rewrite <- H; reflexivity.
Qed.

(** What [get] returns for a successful response of two lines or more. *)
Lemma get_rows store requests_get self offset w response :
  requests_get (request_with self (resolve_offset_spec store self offset))
  = inr response ->
  ok response = true ->
  (2 <= List.length (Bytes.splitlines (Utf8.encode (text response))))%nat ->
  exists w',
    fst (get store requests_get self offset w)
    = fst (_process_rows store self
             (skipn 1 (Bytes.splitlines (Utf8.encode (text response)))) w').
Proof.
  intros Hnet Hok Hlen. after_send Hnet. rewrite Hok. cbn [negb].
  set (entries := Bytes.splitlines (Utf8.encode (text response))) in *.
  destruct (max_id_returns entries
              {| log := (log w ++ [(INFO,
                          Format "Fetching {} feed with last offset: {}"
                            [FVal (PyStr (self_feed self));
                             FVal (resolve_offset_spec store self offset)])])
                        ++ [(DEBUG, Format "Status: {}\nResponse Headers: {}"
                               [FVal (PyInt (status_code response));
                                FHeaders (headers response)])];
                 wire := wire w ++ [request_with self
                                      (resolve_offset_spec store self offset)] |}
              Hlen) as [max_id Hm].
  eexists.
  destruct entries as [|l0 [|l1 ls]]; simpl in Hlen; try lia.
  cbn [orb List.length Nat.ltb Nat.leb Nat.eqb].
  rewrite fst_bind. unfold request_with in Hm. rewrite Hm.
  rewrite fst_bind_ret. reflexivity.
Qed.

(** ** The example of the specification *)

Lemma sample_lines :
  Bytes.splitlines (Utf8.encode (Utf8.of_str sample_body)) = ["header"; sample_row].
Proof. vm_compute. reflexivity. Qed.

Lemma sample_record :
  Csv.reader [sample_row]
  = ([["101"; "http%3A%2F%2Fevil.example%2Fa"; "ignored"; "2024-01-01T00:00:00Z";
       "ignored"; "2024-01-02T00:00:00Z"]], None).
Proof. vm_compute. reflexivity. Qed.

(** C7: for the response body of the example and a store that does not
    know the decoded URL, [get] returns exactly the one entry 101 with
    the URL http://evil.example/a and the two timestamps of the row. *)
Theorem C7_example store requests_get self offset w response :
  requests_get (request_with self (resolve_offset_spec store self offset))
  = inr response ->
  ok response = true ->
  text response = Utf8.of_str sample_body ->
  exists_ store (Utf8.of_str "http://evil.example/a") = false ->
  fst (get store requests_get self offset w)
  = Returns [mkPhish (PyStr "101") (Utf8.of_str "http://evil.example/a")
                     (self_feed self)
                     "2024-01-01T00:00:00Z" "2024-01-02T00:00:00Z"].
Proof.
  intros Hnet Hok Htext Hnew.
  destruct (get_rows store requests_get self offset w response Hnet Hok)
    as [w' Hget].
  { rewrite Htext, sample_lines. simpl. lia. }
  rewrite Hget, Htext, sample_lines. cbn [skipn].
  rewrite process_rows_outcome, sample_record. cbn [fst snd loop_outcome].
  change (index _ 0) with (@inr pyerr string "101").
  change (extract _)
    with (@inr pyerr _ (Utf8.of_str "http://evil.example/a",
                        "2024-01-01T00:00:00Z", "2024-01-02T00:00:00Z")).
  cbv iota beta. rewrite Hnew. reflexivity.
Qed.

Lemma C7_example_witness :
  fst (get empty_store (serve (mkResponse 200 (Utf8.of_str sample_body) []))
           sample_feed (PyInt 0) initial)
  = Returns [sample_entry].
Proof.
  apply (C7_example empty_store
           (serve (mkResponse 200 (Utf8.of_str sample_body) []))
           sample_feed (PyInt 0) initial
           (mkResponse 200 (Utf8.of_str sample_body) []));
    reflexivity.
Defined.

(** ** Where the code leaves the specification *)

(** C1: for a response with status 500 the error text with the status,
    the body and the headers goes to the log, and the [FetchException]
    that is raised is built from the [None] that [logging.error]
    returns: it carries none of them. *)
Theorem C1_exception_carries_none :
  get empty_store
      (serve (mkResponse 500 (Utf8.of_str "oops") [("Server", "nginx")]))
      sample_feed (PyStr "7") initial
  = (Raises (FetchException ObjNone),
     mkWorld
       [(INFO, Format "Fetching {} feed with last offset: {}"
                      [FVal (PyStr "phishtank"); FVal (PyStr "7")]);
        (DEBUG, Format "Status: {}\nResponse Headers: {}"
                       [FVal (PyInt 500); FHeaders [("Server", "nginx")]]);
        (ERROR, Format "Error fetching response:\nStatus: {}\nResponse:{}\nResponse Headers:{}"
                       [FVal (PyInt 500); FVal (PyStr "oops");
                        FHeaders [("Server", "nginx")]])]
       [request_with sample_feed (PyStr "7")]).
Proof. vm_compute. reflexivity. Qed.

(** A row with a first field whose other fields cannot be extracted is
    logged and skipped. *)
Lemma extraction_failure_is_skipped store self record more stop entries
    urls_seen first err w :
  index record 0 = inr first ->
  extract record = inl err ->
  for_records store self (record :: more) stop entries urls_seen w
  = for_records store self more stop entries urls_seen
      (mkWorld (log w ++ [(DEBUG, Format "csv record: {}" [FList record]);
                          (ERROR, Format "cannot extract csv record: {}\nerror: {}"
                                         [FVal (PyStr (String.concat ", " record));
                                          FExcInfo err])])
               (wire w)).
Proof.
  intros H0 Hx. cbn [for_records]. rewrite H0, Hx.
  unfold bind, logging, lift, ret. cbn [log wire].
  now rewrite <- app_assoc.
Qed.

(** C2: a blank line among the data rows is a record with no field;
    [record[0]] is read outside the [try] block, so the IndexError ends
    the batch and the valid row after it is lost. *)
Theorem C2_empty_record_aborts :
  fst (_process_rows empty_store sample_feed [""; sample_row] initial)
  = Raises (Builtin IndexError)
  /\ fst (get empty_store
              (serve (mkResponse 200
                        (Utf8.of_str ("header" ++ nl ++ nl ++ sample_row ++ nl)%string)
                        []))
              sample_feed (PyInt 0) initial)
     = Raises (Builtin IndexError).
Proof. split; vm_compute; reflexivity. Qed.

(** ** Deduplication within a batch *)

Lemma contains_In (x : Utf8.unicode) (l : list Utf8.unicode) :
  contains x l = true <-> In x l.
Proof.
  unfold contains. destruct (in_dec unicode_eq_dec x l); split; auto; discriminate.
Qed.

Lemma contains_not_In (x : Utf8.unicode) (l : list Utf8.unicode) :
  contains x l = false <-> ~ In x l.
Proof.
  unfold contains. destruct (in_dec unicode_eq_dec x l); split; auto;
    [discriminate | contradiction].
Qed.

Section Loop.

Variable store : PhishStore.
Variable self : PhishtankFeed.

Lemma first_of_its_url_cons record before e :
  first_of_its_url store self (record :: before) e ->
  first_of_its_url store self before e.
Proof. intros H r' e' Hin. apply H. now right. Qed.

Lemma loop_spec records stop :
  forall entries urls_seen res,
    loop_outcome store self records stop entries urls_seen = Returns res ->
    urls_seen = map (normalized store) entries ->
    NoDup urls_seen ->
    Forall (fun e => exists_ store (url e) = false) entries ->
    exists new,
      res = entries ++ new
      /\ NoDup (map (normalized store) res)
      /\ Forall (fun e => exists_ store (url e) = false) res
      /\ (forall e, In e new ->
            exists before record after,
              records = before ++ record :: after
              /\ candidate store self record e
              /\ ~ In (normalized store e) urls_seen
              /\ first_of_its_url store self before e)
      /\ (forall before record after e,
            records = before ++ record :: after ->
            candidate store self record e ->
            ~ In (normalized store e) urls_seen ->
            first_of_its_url store self before e ->
            In e new).
Proof.
  induction records as [|record more IH]; intros entries urls_seen res Hres Hseen Hnd Hex.
  - simpl in Hres. destruct stop; [discriminate|]. injection Hres as <-.
    exists []. rewrite app_nil_r.
    split; [reflexivity|]. split; [now rewrite <- Hseen|]. split; [assumption|].
    split.
    + intros e [].
    + intros before r after e Heq. now destruct before.
  - simpl in Hres.
    destruct (index record 0) as [err|p] eqn:Hp; [discriminate|].
    destruct (extract record) as [err|[[u st] vt]] eqn:Hx.
    + (* the fields cannot be extracted: the row is skipped *)
      assert (Hnone : entry_of self record = None).
      { unfold entry_of. now rewrite Hp, Hx. }
      destruct (IH _ _ _ Hres Hseen Hnd Hex) as (new & -> & Hn & Hf & Hfrom & Hto).
      exists new.
      split; [reflexivity|]. split; [assumption|]. split; [assumption|]. split.
      * intros e He. destruct (Hfrom e He) as (b & r & a & -> & Hc & Hs & Hfirst).
        exists (record :: b), r, a.
        split; [reflexivity|]. split; [assumption|]. split; [assumption|].
        intros r' e' [<-|Hin] Hc'.
        -- destruct Hc' as [He' _]. congruence.
        -- now apply Hfirst with r'.
      * intros before r after e Heq Hc Hs Hfirst.
        destruct before as [|r0 before]; simpl in Heq; injection Heq as <- ->.
        -- destruct Hc as [Hc _]. congruence.
        -- eapply Hto; eauto. eapply first_of_its_url_cons; eauto.
    + set (e0 := mkPhish (PyStr p) u (self_feed self) st vt) in *.
      assert (Hsome : entry_of self record = Some e0).
      { unfold entry_of. now rewrite Hp, Hx. }
      destruct (exists_ store u || contains (clean_url store u) urls_seen) eqn:Hskip.
      * (* known to the store, or seen earlier in the batch *)
        destruct (IH _ _ _ Hres Hseen Hnd Hex) as (new & -> & Hn & Hf & Hfrom & Hto).
        exists new.
        split; [reflexivity|]. split; [assumption|]. split; [assumption|]. split.
        -- intros e He. destruct (Hfrom e He) as (b & r & a & -> & Hc & Hs & Hfirst).
           exists (record :: b), r, a.
           split; [reflexivity|]. split; [assumption|]. split; [assumption|].
           intros r' e' [<-|Hin] Hc'.
           ++ destruct Hc' as [He' Hunknown].
              rewrite Hsome in He'. injection He' as <-.
              cbn [url e0] in Hunknown. rewrite Hunknown in Hskip.
              cbn [orb] in Hskip. apply contains_In in Hskip.
              intros Heq. apply Hs. rewrite <- Heq. exact Hskip.
           ++ now apply Hfirst with r'.
        -- intros before r after e Heq Hc Hs Hfirst.
           destruct before as [|r0 before]; simpl in Heq; injection Heq as <- ->.
           ++ destruct Hc as [Hc Hunknown]. rewrite Hsome in Hc. injection Hc as <-.
              cbn [url e0] in Hunknown. rewrite Hunknown in Hskip.
              cbn [orb] in Hskip. apply contains_In in Hskip. contradiction.
           ++ eapply Hto; eauto. eapply first_of_its_url_cons; eauto.
      * (* kept *)
        apply orb_false_iff in Hskip. destruct Hskip as [Hunknown Hfresh].
        apply contains_not_In in Hfresh.
        destruct (IH (entries ++ [e0]) (urls_seen ++ [clean_url store u]) res Hres)
          as (new & -> & Hn & Hf & Hfrom & Hto).
        { rewrite map_app, Hseen. reflexivity. }
        { apply NoDup_app; [assumption | repeat constructor; intros [] | ].
          intros x Hin [<-|[]]. contradiction. }
        { apply Forall_app. split; [assumption|]. repeat constructor. exact Hunknown. }
        exists (e0 :: new). rewrite <- app_assoc in *. cbn [app] in *.
        split; [reflexivity|]. split; [assumption|]. split; [assumption|]. split.
        -- intros e [<-|He].
           ++ exists [], record, more.
              split; [reflexivity|]. split; [now split|]. split; [assumption|].
              intros r' e' [].
           ++ destruct (Hfrom e He) as (b & r & a & -> & Hc & Hs & Hfirst).
              exists (record :: b), r, a.
              split; [reflexivity|]. split; [assumption|]. split.
              ** intros Hin. apply Hs. apply in_or_app. now left.
              ** intros r' e' [<-|Hin] Hc'.
                 --- destruct Hc' as [He' Hu'].
                     rewrite Hsome in He'. injection He' as <-.
                     intros Heq. apply Hs. apply in_or_app. right. left.
                     exact Heq.
                 --- now apply Hfirst with r'.
        -- intros before r after e Heq Hc Hs Hfirst.
           destruct before as [|r0 before]; simpl in Heq; injection Heq as <- ->.
           ++ destruct Hc as [Hc _]. rewrite Hsome in Hc. injection Hc as <-. now left.
           ++ right. eapply Hto; eauto.
              ** intros Hin. apply in_app_or in Hin. destruct Hin as [Hin|[Heq|[]]].
                 --- contradiction.
                 --- apply (Hfirst record e0); [now left | now split | exact Heq].
              ** eapply first_of_its_url_cons; eauto.
Qed.

End Loop.

(** C3 as stated fails: two rows normalise to the same URL and the entry
    that is returned is the one of the second row, once because the store
    knows the raw URL of the first row and once because the first row is
    too short for its timestamps. *)
Lemma C3_counterexample :
  (map (entry_of sample_feed) (fst (Csv.reader [known_row; sample_row]))
   = [Some known_entry; Some sample_entry]
   /\ normalized slash_store known_entry = normalized slash_store sample_entry
   /\ fst (_process_rows slash_store sample_feed [known_row; sample_row] initial)
      = Returns [sample_entry])
  /\ (map (fun record => nth_error record 1) (fst (Csv.reader [short_row; sample_row]))
      = [Some "http%3A%2F%2Fevil.example%2Fa"; Some "http%3A%2F%2Fevil.example%2Fa"]
      /\ fst (_process_rows empty_store sample_feed [short_row; sample_row] initial)
         = Returns [sample_entry]).
Proof. repeat split; vm_compute; reflexivity. Qed.

(** C3, amended: the entries one call returns have pairwise different
    normalised URLs and none has a URL the store knows; they are exactly
    the entries of the rows that are the first, among the rows whose
    fields can be extracted and whose URL the store does not know, with
    their normalised URL, so of two such rows that normalise identically
    only the first is retained. *)
Theorem C3_batch_dedup store self rows w res w' :
  _process_rows store self rows w = (Returns res, w') ->
  NoDup (map (normalized store) res)
  /\ Forall (fun e => exists_ store (url e) = false) res
  /\ (forall e, In e res ->
        exists before record after,
          fst (Csv.reader rows) = before ++ record :: after
          /\ candidate store self record e
          /\ first_of_its_url store self before e)
  /\ (forall before record after e,
        fst (Csv.reader rows) = before ++ record :: after ->
        candidate store self record e ->
        first_of_its_url store self before e ->
        In e res).
Proof.
  intros Hrun.
  pose proof (process_rows_outcome store self rows w) as Hout.
  rewrite Hrun in Hout. cbn [fst] in Hout. symmetry in Hout.
  destruct (loop_spec store self _ _ [] [] res Hout eq_refl)
    as (new & Hres & Hn & Hf & Hfrom & Hto).
  { constructor. }
  { constructor. }
  cbn [app] in Hres. subst new.
  split; [assumption|]. split; [assumption|]. split.
  - intros e He. destruct (Hfrom e He) as (b & r & a & Heq & Hc & _ & Hfirst).
    exists b, r, a. auto.
  - intros b r a e Heq Hc Hfirst. apply (Hto b r a e); auto.
Qed.

Lemma C3_batch_dedup_witness :
  NoDup (map (normalized empty_store) [sample_entry])
  /\ Forall (fun e => exists_ empty_store (url e) = false) [sample_entry]
  /\ (forall e, In e [sample_entry] ->
        exists before record after,
          fst (Csv.reader [sample_row; sample_row]) = before ++ record :: after
          /\ candidate empty_store sample_feed record e
          /\ first_of_its_url empty_store sample_feed before e)
  /\ (forall before record after e,
        fst (Csv.reader [sample_row; sample_row]) = before ++ record :: after ->
        candidate empty_store sample_feed record e ->
        first_of_its_url empty_store sample_feed before e ->
        In e [sample_entry]).
Proof.
  apply (C3_batch_dedup empty_store sample_feed [sample_row; sample_row] initial
           [sample_entry]
           (snd (_process_rows empty_store sample_feed [sample_row; sample_row]
                   initial))).
  vm_compute. reflexivity.
Defined.

(** ** Percent-encoding and the UTF-8 codec *)

Lemma all_ascii_complete (c : ascii) : In c all_ascii.
Proof.
  unfold all_ascii. rewrite <- (ascii_nat_embedding c).
  apply in_map, in_seq. pose proof (nat_ascii_bounded c). lia.
Qed.

Lemma forall_ascii_spec (P : ascii -> bool) :
  forall_ascii P = true -> forall c, P c = true.
Proof.
  intros H c. unfold forall_ascii in H. rewrite forallb_forall in H.
  apply H, all_ascii_complete.
Qed.

Lemma append_nil_r (s : string) : (s ++ "")%string = s.
Proof. induction s as [|c s IH]; cbn; [reflexivity | now rewrite IH]. Qed.

Module Utf8Facts.

Import Utf8.

Lemma byte_ord (c : ascii) : byte (ord c) = c.
Proof. apply ascii_N_embedding. Qed.

Lemma code_length_cases (b : N) :
  utf8_code_length b = 0%N \/ utf8_code_length b = 1%N
  \/ utf8_code_length b = 2%N \/ utf8_code_length b = 3%N
  \/ utf8_code_length b = 4%N.
Proof.
  unfold utf8_code_length.
  repeat match goal with |- context [(?x <? ?y)%N] => destruct (x <? y)%N end;
    auto 6.
Qed.

Lemma step1 (c0 : ascii) :
  utf8_code_length (ord c0) = 1%N -> (ord c0 <? 0x80)%N = true.
Proof.
  unfold utf8_code_length. destruct (ord c0 <? 0x80)%N; [reflexivity|].
  repeat match goal with |- context [(?x <? ?y)%N] => destruct (x <? y)%N end;
    discriminate.
Qed.

Local Open Scope N_scope.

Lemma land_3f (x : N) : N.land x 0x3f = x mod 64.
Proof. change 0x3f with (N.ones 6). now rewrite N.land_ones. Qed.

Lemma fields2 (a p : N) :
  p < 64 -> (a * 64 + p) / 64 = a /\ (a * 64 + p) mod 64 = p.
Proof.
  intros Hp. split; symmetry.
  - apply N.div_unique with p; lia.
  - apply N.mod_unique with a; lia.
Qed.

Lemma fields3 (a p q : N) :
  p < 64 -> q < 64 ->
  let ch := a * 4096 + p * 64 + q in
  ch / 4096 = a /\ (ch / 64) mod 64 = p /\ ch mod 64 = q.
Proof.
  intros Hp Hq ch. subst ch.
  assert (H64 : (a * 4096 + p * 64 + q) / 64 = a * 64 + p).
  { symmetry. apply N.div_unique with q; lia. }
  rewrite H64. repeat split; symmetry.
  - apply N.div_unique with (p * 64 + q); lia.
  - apply N.mod_unique with a; lia.
  - apply N.mod_unique with (a * 64 + p); lia.
Qed.

Lemma fields4 (a p q r : N) :
  p < 64 -> q < 64 -> r < 64 ->
  let ch := a * 262144 + p * 4096 + q * 64 + r in
  ch / 262144 = a /\ (ch / 4096) mod 64 = p /\ (ch / 64) mod 64 = q
  /\ ch mod 64 = r.
Proof.
  intros Hp Hq Hr ch. subst ch.
  assert (H64 : (a * 262144 + p * 4096 + q * 64 + r) / 64 = a * 4096 + p * 64 + q).
  { symmetry. apply N.div_unique with r; lia. }
  assert (H4096 : (a * 262144 + p * 4096 + q * 64 + r) / 4096 = a * 64 + p).
  { symmetry. apply N.div_unique with (q * 64 + r); lia. }
  rewrite H64, H4096. repeat split; symmetry.
  - apply N.div_unique with (p * 4096 + q * 64 + r); lia.
  - apply N.mod_unique with a; lia.
  - apply N.mod_unique with (a * 64 + p); lia.
  - apply N.mod_unique with (a * 4096 + p * 64 + q); lia.
Qed.

(** What the tests of the decoder say about one byte. *)
Definition cont_check (c : ascii) : bool :=
  let p := N.land (ord c) 0x3f in
  implb (is_cont c)
        ((p <? 64) && (byte (N.lor 0x80 p) =? c)%char
         && implb (negb (ord c <? 0xA0)) (32 <=? p)
         && implb (negb (ord c <? 0x90)) (16 <=? p)).

Definition lead2_check (c : ascii) : bool :=
  let a := N.land (ord c) 0x1f in
  implb (utf8_code_length (ord c) =? 2)
        ((2 <=? a) && (a <? 32) && (byte (N.lor 0xc0 a) =? c)%char).

Definition lead3_check (c : ascii) : bool :=
  let a := N.land (ord c) 0x0f in
  implb (utf8_code_length (ord c) =? 3)
        ((a <? 16) && (byte (N.lor 0xe0 a) =? c)%char
         && implb (negb (ord c =? 0xE0)) (1 <=? a)).

Definition lead4_check (c : ascii) : bool :=
  let a := N.land (ord c) 0x7 in
  implb (utf8_code_length (ord c) =? 4)
        ((a <? 8) && (byte (N.lor 0xf0 a) =? c)%char
         && implb (negb (ord c =? 0xF0)) (1 <=? a)).

Lemma byte_checks :
  forall_ascii (fun c => cont_check c && lead2_check c && lead3_check c
                         && lead4_check c) = true.
Proof. vm_compute. reflexivity. Qed.

Lemma cont_facts (c : ascii) :
  is_cont c = true ->
  let p := N.land (ord c) 0x3f in
  p < 64 /\ byte (N.lor 0x80 p) = c
  /\ ((ord c <? 0xA0) = false -> 32 <= p)
  /\ ((ord c <? 0x90) = false -> 16 <= p).
Proof.
  intros Hc p.
  pose proof (forall_ascii_spec _ byte_checks c) as H.
  rewrite !andb_true_iff in H. destruct H as [[[H _] _] _].
  unfold cont_check in H. rewrite Hc in H. cbn [implb] in H. fold p in H.
  rewrite !andb_true_iff in H. destruct H as [[[Hp Hb] H32] H16].
  apply N.ltb_lt in Hp. apply Ascii.eqb_eq in Hb.
  repeat split; auto.
  - intros E. rewrite E in H32. now apply N.leb_le in H32.
  - intros E. rewrite E in H16. now apply N.leb_le in H16.
Qed.

Lemma lead2_facts (c : ascii) :
  utf8_code_length (ord c) = 2 ->
  let a := N.land (ord c) 0x1f in
  2 <= a < 32 /\ byte (N.lor 0xc0 a) = c.
Proof.
  intros Hc a.
  pose proof (forall_ascii_spec _ byte_checks c) as H.
  rewrite !andb_true_iff in H. destruct H as [[[_ H] _] _].
  unfold lead2_check in H. rewrite Hc in H. cbn [N.eqb Pos.eqb implb] in H.
  fold a in H. rewrite !andb_true_iff in H. destruct H as [[Hl Hu] Hb].
  apply N.leb_le in Hl. apply N.ltb_lt in Hu. apply Ascii.eqb_eq in Hb. auto.
Qed.

Lemma lead3_facts (c : ascii) :
  utf8_code_length (ord c) = 3 ->
  let a := N.land (ord c) 0x0f in
  a < 16 /\ byte (N.lor 0xe0 a) = c /\ ((ord c =? 0xE0) = false -> 1 <= a).
Proof.
  intros Hc a.
  pose proof (forall_ascii_spec _ byte_checks c) as H.
  rewrite !andb_true_iff in H. destruct H as [[[_ _] H] _].
  unfold lead3_check in H. rewrite Hc in H. cbn [N.eqb Pos.eqb implb] in H.
  fold a in H. rewrite !andb_true_iff in H. destruct H as [[Hu Hb] H1].
  apply N.ltb_lt in Hu. apply Ascii.eqb_eq in Hb.
  repeat split; auto.
  intros E. rewrite E in H1. now apply N.leb_le in H1.
Qed.

Lemma lead4_facts (c : ascii) :
  utf8_code_length (ord c) = 4 ->
  let a := N.land (ord c) 0x7 in
  a < 8 /\ byte (N.lor 0xf0 a) = c /\ ((ord c =? 0xF0) = false -> 1 <= a).
Proof.
  intros Hc a.
  pose proof (forall_ascii_spec _ byte_checks c) as H.
  rewrite !andb_true_iff in H. destruct H as [_ H].
  unfold lead4_check in H. rewrite Hc in H. cbn [N.eqb Pos.eqb implb] in H.
  fold a in H. rewrite !andb_true_iff in H. destruct H as [[Hu Hb] H1].
  apply N.ltb_lt in Hu. apply Ascii.eqb_eq in Hb.
  repeat split; auto.
  intros E. rewrite E in H1. now apply N.leb_le in H1.
Qed.

Lemma encode_cons (ch : N) (rest : unicode) :
  is_high_surrogate ch = false ->
  encode (ch :: rest) = (encode [ch] ++ encode rest)%string.
Proof.
  intros Hh. cbn [encode]. rewrite Hh. cbn [andb].
  destruct (ch <? 0x80); [reflexivity|].
  destruct (ch <? 0x800); [reflexivity|].
  destruct (ch <? 0x10000).
  - destruct rest; cbn [encode]; now rewrite append_nil_r.
  - now rewrite append_nil_r.
Qed.

Lemma step2 (c0 c1 : ascii) :
  utf8_code_length (ord c0) = 2 -> is_cont c1 = true ->
  encode [ch2 c0 c1] = String c0 (String c1 "").
Proof.
  intros H0 H1.
  destruct (lead2_facts c0 H0) as [Ha Hb0].
  destruct (cont_facts c1 H1) as (Hp & Hb1 & _).
  unfold ch2. cbv zeta in *.
  set (a := N.land (ord c0) 0x1f) in *. set (p := N.land (ord c1) 0x3f) in *.
  rewrite N.shiftl_mul_pow2. change (2 ^ 6) with 64.
  destruct (fields2 a p Hp) as [Hd Hm].
  cbn [encode].
  destruct (N.ltb_spec (a * 64 + p) 0x80); [lia|].
  destruct (N.ltb_spec (a * 64 + p) 0x800); [|lia].
  rewrite N.shiftr_div_pow2, land_3f. change (2 ^ 6) with 64.
  now rewrite Hd, Hm, Hb0, Hb1.
Qed.

Lemma step3 (c0 c1 c2 : ascii) :
  utf8_code_length (ord c0) = 3 -> bad3 c0 c1 c2 = false ->
  encode [ch3 c0 c1 c2] = String c0 (String c1 (String c2 "")).
Proof.
  intros H0 Hbad. unfold bad3 in Hbad.
  apply orb_false_iff in Hbad. destruct Hbad as [Hbad Hover].
  apply orb_false_iff in Hbad. destruct Hbad as [H1 H2].
  apply negb_false_iff in H1, H2.
  destruct (lead3_facts c0 H0) as (Ha & Hb0 & Ha1).
  destruct (cont_facts c1 H1) as (Hp & Hb1 & Hp32 & _).
  destruct (cont_facts c2 H2) as (Hq & Hb2 & _).
  unfold ch3. cbv zeta in *.
  set (a := N.land (ord c0) 0x0f) in *. set (p := N.land (ord c1) 0x3f) in *.
  set (q := N.land (ord c2) 0x3f) in *.
  rewrite !N.shiftl_mul_pow2. change (2 ^ 12) with 4096. change (2 ^ 6) with 64.
  destruct (fields3 a p q Hp Hq) as (Hd & Hm1 & Hm2).
  assert (Hlow : 0x800 <= a * 4096 + p * 64 + q).
  { apply andb_false_iff in Hover. destruct Hover as [E|E].
    - specialize (Ha1 E). lia.
    - specialize (Hp32 E). lia. }
  cbn [encode].
  destruct (N.ltb_spec (a * 4096 + p * 64 + q) 0x80); [lia|].
  destruct (N.ltb_spec (a * 4096 + p * 64 + q) 0x800); [lia|].
  destruct (N.ltb_spec (a * 4096 + p * 64 + q) 0x10000); [|lia].
  rewrite append_nil_r. unfold encode3.
  rewrite !N.shiftr_div_pow2, !land_3f.
  change (2 ^ 12) with 4096. change (2 ^ 6) with 64.
  now rewrite Hd, Hm1, Hm2, Hb0, Hb1, Hb2.
Qed.

Lemma step4 (c0 c1 c2 c3 : ascii) :
  utf8_code_length (ord c0) = 4 -> bad4 c0 c1 c2 c3 = false ->
  encode [ch4 c0 c1 c2 c3] = String c0 (String c1 (String c2 (String c3 ""))).
Proof.
  intros H0 Hbad. unfold bad4 in Hbad.
  apply orb_false_iff in Hbad. destruct Hbad as [Hbad _].
  apply orb_false_iff in Hbad. destruct Hbad as [Hbad Hover].
  apply orb_false_iff in Hbad. destruct Hbad as [Hbad H3].
  apply orb_false_iff in Hbad. destruct Hbad as [H1 H2].
  apply negb_false_iff in H1, H2, H3.
  destruct (lead4_facts c0 H0) as (Ha & Hb0 & Ha1).
  destruct (cont_facts c1 H1) as (Hp & Hb1 & _ & Hp16).
  destruct (cont_facts c2 H2) as (Hq & Hb2 & _).
  destruct (cont_facts c3 H3) as (Hr & Hb3 & _).
  unfold ch4. cbv zeta in *.
  set (a := N.land (ord c0) 0x7) in *. set (p := N.land (ord c1) 0x3f) in *.
  set (q := N.land (ord c2) 0x3f) in *. set (r := N.land (ord c3) 0x3f) in *.
  rewrite !N.shiftl_mul_pow2.
  change (2 ^ 18) with 262144. change (2 ^ 12) with 4096. change (2 ^ 6) with 64.
  destruct (fields4 a p q r Hp Hq Hr) as (Hd & Hm1 & Hm2 & Hm3).
  assert (Hlow : 0x10000 <= a * 262144 + p * 4096 + q * 64 + r).
  { apply andb_false_iff in Hover. destruct Hover as [E|E].
    - specialize (Ha1 E). lia.
    - specialize (Hp16 E). lia. }
  cbn [encode].
  destruct (N.ltb_spec (a * 262144 + p * 4096 + q * 64 + r) 0x80); [lia|].
  destruct (N.ltb_spec (a * 262144 + p * 4096 + q * 64 + r) 0x800); [lia|].
  destruct (N.ltb_spec (a * 262144 + p * 4096 + q * 64 + r) 0x10000); [lia|].
  rewrite append_nil_r. unfold encode4.
  rewrite !N.shiftr_div_pow2, !land_3f.
  change (2 ^ 18) with 262144. change (2 ^ 12) with 4096. change (2 ^ 6) with 64.
  now rewrite Hd, Hm1, Hm2, Hm3, Hb0, Hb1, Hb2, Hb3.
Qed.

Lemma cons_ok_inr (ch : N) (r : string + unicode) (u : unicode) :
  cons_ok ch r = inr u -> exists u', r = inr u' /\ u = ch :: u'.
Proof.
  destruct r as [e|u']; cbn [cons_ok]; [discriminate|].
  intros H. injection H as <-. now exists u'.
Qed.

Lemma no_surrogates_cons (ch : N) (u : unicode) :
  no_surrogates (ch :: u) = true ->
  is_high_surrogate ch = false /\ no_surrogates u = true.
Proof.
  unfold no_surrogates. cbn [forallb]. rewrite andb_true_iff.
  intros [H1 H2]. split; [|exact H2].
  apply negb_true_iff, orb_false_iff in H1. tauto.
Qed.

(** Re-encoding a decoded text gives the bytes back, surrogates apart. *)
Lemma encode_decode (n : nat) :
  forall (b : string) (u : unicode),
    (String.length b <= n)%nat ->
    decode b = inr u -> no_surrogates u = true -> encode u = b.
Proof.
  induction n as [|n IH]; intros b u Hlen Hd Hs.
  - destruct b; [|cbn in Hlen; lia]. cbn in Hd. now injection Hd as <-.
  - destruct b as [|c0 rest]; [cbn in Hd; now injection Hd as <-|].
    cbn [String.length] in Hlen. cbn [decode] in Hd.
    destruct (code_length_cases (ord c0)) as [E|[E|[E|[E|E]]]];
      rewrite E in Hd; cbv iota in Hd.
    + discriminate.
    + apply cons_ok_inr in Hd. destruct Hd as (u' & Hd & ->).
      apply no_surrogates_cons in Hs. destruct Hs as [Hh Hs].
      rewrite encode_cons by exact Hh.
      rewrite (IH rest u') by (auto; lia).
      cbn [encode]. rewrite (step1 c0 E), byte_ord. reflexivity.
    + destruct rest as [|c1 rest2]; [discriminate|].
      cbn [String.length] in Hlen.
      destruct (is_cont c1) eqn:H1; cbn [negb] in Hd; [|discriminate].
      apply cons_ok_inr in Hd. destruct Hd as (u' & Hd & ->).
      apply no_surrogates_cons in Hs. destruct Hs as [Hh Hs].
      rewrite encode_cons by exact Hh.
      rewrite (IH rest2 u') by (auto; lia).
      rewrite step2 by assumption. reflexivity.
    + destruct rest as [|c1 [|c2 rest3]]; [discriminate|discriminate|].
      cbn [String.length] in Hlen.
      destruct (bad3 c0 c1 c2) eqn:Hbad; [discriminate|].
      apply cons_ok_inr in Hd. destruct Hd as (u' & Hd & ->).
      apply no_surrogates_cons in Hs. destruct Hs as [Hh Hs].
      rewrite encode_cons by exact Hh.
      rewrite (IH rest3 u') by (auto; lia).
      rewrite step3 by assumption. reflexivity.
    + destruct rest as [|c1 [|c2 [|c3 rest4]]]; [discriminate|discriminate|discriminate|].
      cbn [String.length] in Hlen.
      destruct (bad4 c0 c1 c2 c3) eqn:Hbad; [discriminate|].
      apply cons_ok_inr in Hd. destruct Hd as (u' & Hd & ->).
      apply no_surrogates_cons in Hs. destruct Hs as [Hh Hs].
      rewrite encode_cons by exact Hh.
      rewrite (IH rest4 u') by (auto; lia).
      rewrite step4 by assumption. reflexivity.
Qed.

End Utf8Facts.

Module UrllibFacts.

Import Bytes Urllib.

Lemma concat_cons (x : string) (xs : list string) :
  String.concat "" (x :: xs) = (x ++ String.concat "" xs)%string.
Proof.
  destruct xs as [|y ys]; cbn [String.concat append].
  - now rewrite append_nil_r.
  - reflexivity.
Qed.

Lemma split_single (sep : ascii) (s b : string) :
  split sep s = [b] -> b = s.
Proof.
  revert b. induction s as [|c rest IH]; intros b; cbn [split].
  - intros H. now injection H as <-.
  - destruct (c =? sep)%char.
    + intros H. injection H as _ H. now apply split_not_nil in H.
    + destruct (split sep rest) as [|p ps] eqn:E; [now apply split_not_nil in E|].
      intros H. injection H as <- ->. now rewrite (IH p eq_refl).
Qed.

(** [unquote] without its fast path. *)
Lemma unquote_alt (s : string) :
  unquote s
  = match split "%" s with
    | [] => s
    | bit0 :: items => (bit0 ++ String.concat "" (map unquote_item items))%string
    end.
Proof.
  unfold unquote. destruct (split "%" s) as [|bit0 [|item items]] eqn:E;
    [reflexivity | | reflexivity].
  apply split_single in E. subst bit0. cbn [map String.concat].
  now rewrite append_nil_r.
Qed.

Lemma unquote_plain (c : ascii) (rest : string) :
  (c =? "%")%char = false ->
  unquote (String c rest) = String c (unquote rest).
Proof.
  intros Hc. rewrite !unquote_alt. cbn [split]. rewrite Hc.
  destruct (split "%" rest) as [|p ps] eqn:E; [now apply split_not_nil in E|].
  reflexivity.
Qed.

Lemma hexdig_not_percent (a : ascii) (v : N) :
  hexdig_value a = Some v -> (a =? "%")%char = false.
Proof.
  intros H. destruct (a =? "%")%char eqn:E; [|reflexivity].
  apply Ascii.eqb_eq in E. subst a. discriminate.
Qed.

Lemma unquote_escape (a b ch : ascii) (rest : string) :
  hextochr a b = Some ch ->
  unquote (String "%" (String a (String b rest))) = String ch (unquote rest).
Proof.
  intros Hh.
  assert (Ha : (a =? "%")%char = false /\ (b =? "%")%char = false).
  { unfold hextochr in Hh.
    destruct (hexdig_value a) eqn:Ea; [|discriminate].
    destruct (hexdig_value b) eqn:Eb; [|discriminate].
    split; eapply hexdig_not_percent; eauto. }
  destruct Ha as [Ha Hb].
  rewrite !unquote_alt. cbn [split]. rewrite Ascii.eqb_refl, Ha, Hb.
  destruct (split "%" rest) as [|p ps] eqn:E; [now apply split_not_nil in E|].
  cbn [map]. rewrite concat_cons. cbn [unquote_item]. rewrite Hh.
  reflexivity.
Qed.

Lemma escape_check :
  forall_ascii (fun a =>
    if is_upper_hexdig a then
      forall_ascii (fun b =>
        implb (is_upper_hexdig b)
              match hextochr a b with
              | Some ch =>
                  (percent_escape ch =? String "%" (String a (String b "")))%string
              | None => false
              end)
    else true) = true.
Proof. vm_compute. reflexivity. Qed.

Lemma escape_roundtrip (a b ch : ascii) :
  is_upper_hexdig a = true -> is_upper_hexdig b = true ->
  hextochr a b = Some ch ->
  percent_escape ch = String "%" (String a (String b "")).
Proof.
  intros Ha Hb Hh.
  pose proof (forall_ascii_spec _ escape_check a) as H. cbv beta in H.
  rewrite Ha in H.
  pose proof (forall_ascii_spec _ H b) as H'. cbv beta in H'.
  rewrite Hb, Hh in H'. cbn [implb] in H'. now apply String.eqb_eq in H'.
Qed.

(** Quoting what a canonical field unquotes to gives the field back. *)
Lemma quote_unquote (n : nat) :
  forall x : string,
    (String.length x <= n)%nat -> canonical x = true -> quote (unquote x) = x.
Proof.
  induction n as [|n IH]; intros x Hlen Hc.
  - destruct x; [reflexivity | cbn in Hlen; lia].
  - destruct x as [|c rest]; [reflexivity|].
    cbn [String.length] in Hlen. cbn [canonical] in Hc.
    destruct (c =? "%")%char eqn:Ec.
    + apply Ascii.eqb_eq in Ec. subst c.
      destruct rest as [|a [|b rest']]; try discriminate.
      cbn [String.length] in Hlen.
      rewrite !andb_true_iff in Hc. destruct Hc as [[[Ha Hb] Hs] Hr].
      destruct (hextochr a b) as [ch|] eqn:Eh; [|discriminate].
      apply negb_true_iff in Hs.
      rewrite (unquote_escape a b ch rest' Eh). cbn [quote]. rewrite Hs.
      rewrite (escape_roundtrip a b ch Ha Hb Eh).
      rewrite IH by (auto; lia). reflexivity.
    + apply andb_true_iff in Hc. destruct Hc as [Hs Hr].
      rewrite unquote_plain by exact Ec. cbn [quote]. rewrite Hs.
      rewrite IH by (auto; lia). reflexivity.
Qed.

End UrllibFacts.

(** ** The URL of an entry and the field it was read from *)

Lemma entry_of_url (self : PhishtankFeed) (record : list string) (e : Phish) :
  entry_of self record = Some e ->
  exists x, nth_error record 1 = Some x
            /\ Utf8.decode (Urllib.unquote x) = inr (url e).
Proof.
  unfold entry_of, extract, index.
  destruct (nth_error record 0); [|discriminate].
  destruct (nth_error record 1) as [x|]; [|discriminate].
  destruct (Utf8.decode (Urllib.unquote x)) as [err|u] eqn:Hd; [discriminate|].
  destruct (nth_error record 3); [|discriminate].
  destruct (nth_error record 5); [|discriminate].
  intros H. injection H as <-. exists x. split; [reflexivity | exact Hd].
Qed.

(** The percent-encoding of the URL of an entry is the field of its row,
    when that field is canonical. *)
Lemma canonical_field_round_trip (self : PhishtankFeed) (record : list string)
    (x : string) (e : Phish) :
  nth_error record 1 = Some x ->
  entry_of self record = Some e ->
  Urllib.canonical x = true ->
  Utf8.no_surrogates (url e) = true ->
  percent_encode (url e) = x.
Proof.
  intros Hx He Hc Hs.
  destruct (entry_of_url self record e He) as (x' & Hx' & Hd).
  rewrite Hx in Hx'. injection Hx' as <-.
  unfold percent_encode.
  rewrite (Utf8Facts.encode_decode _ _ _ (Nat.le_refl _) Hd Hs).
  apply (UrllibFacts.quote_unquote _ _ (Nat.le_refl _) Hc).
Qed.

(** The encoder joins a high and a low surrogate that the decoder read
    from two sequences of three bytes: such a field is not given back. *)
Example surrogate_pair_is_joined :
  Urllib.canonical "%ED%A0%80%ED%B0%80" = true
  /\ Utf8.decode (Urllib.unquote "%ED%A0%80%ED%B0%80") = inr [0xD800; 0xDC00]%N
  /\ percent_encode [0xD800; 0xDC00]%N = "%F0%90%80%80".
Proof. repeat split; vm_compute; reflexivity. Qed.

(** C8 as stated fails: the field with lower-case escapes is well
    formed, the URL of its entry is the URL of the example, and
    percent-encoding it gives the upper-case field, not the field of the
    row; as two different well-formed fields give the same URL, no
    encoder gives both back. *)
Lemma C8_counterexample :
  Urllib.well_formed lowercase_field = true
  /\ map (fun record => nth_error record 1) (fst (Csv.reader [lowercase_row]))
     = [Some lowercase_field]
  /\ fst (_process_rows empty_store sample_feed [lowercase_row] initial)
     = Returns [sample_entry]
  /\ percent_encode (url sample_entry) = "http%3A%2F%2Fevil.example%2Fa"
  /\ percent_encode (url sample_entry) <> lowercase_field
  /\ ~ (exists encode : Utf8.unicode -> string,
          forall x e,
            Urllib.well_formed x = true ->
            entry_of sample_feed ["101"; x; ""; ""; ""; ""] = Some e ->
            encode (url e) = x).
Proof.
  split; [reflexivity|]. split; [vm_compute; reflexivity|].
  split; [vm_compute; reflexivity|]. split; [vm_compute; reflexivity|].
  split; [vm_compute; discriminate|].
  intros [encode H].
  pose proof (H lowercase_field
                (mkPhish (PyStr "101") (Utf8.of_str "http://evil.example/a")
                         "phishtank" "" "")
                eq_refl) as H1.
  pose proof (H "http%3A%2F%2Fevil.example%2Fa"
                (mkPhish (PyStr "101") (Utf8.of_str "http://evil.example/a")
                         "phishtank" "" "")
                eq_refl) as H2.
  assert (E1 : entry_of sample_feed ["101"; lowercase_field; ""; ""; ""; ""]
               = Some (mkPhish (PyStr "101") (Utf8.of_str "http://evil.example/a")
                               "phishtank" "" ""))
    by (vm_compute; reflexivity).
  assert (E2 : entry_of sample_feed
                 ["101"; "http%3A%2F%2Fevil.example%2Fa"; ""; ""; ""; ""]
               = Some (mkPhish (PyStr "101") (Utf8.of_str "http://evil.example/a")
                               "phishtank" "" ""))
    by (vm_compute; reflexivity).
  specialize (H1 E1). specialize (H2 E2). rewrite H1 in H2.
  vm_compute in H2. discriminate.
Qed.

(** C8, amended: every entry that is returned comes from a row, and when
    the URL field of that row is canonical (the bytes outside
    [A-Za-z0-9_.-] as upper-case escapes, all others literally) and the
    URL has no surrogate code point, percent-encoding the URL of the
    entry gives the field back. *)
Theorem C8_canonical_round_trip store self rows w res w' e :
  _process_rows store self rows w = (Returns res, w') ->
  In e res ->
  exists record x,
    In record (fst (Csv.reader rows))
    /\ nth_error record 1 = Some x
    /\ entry_of self record = Some e
    /\ (Urllib.canonical x = true ->
        Utf8.no_surrogates (url e) = true ->
        percent_encode (url e) = x).
Proof.
  intros Hrun He.
  pose proof (process_rows_outcome store self rows w) as Hout.
  rewrite Hrun in Hout. cbn [fst] in Hout. symmetry in Hout.
  destruct (loop_spec store self _ _ [] [] res Hout eq_refl)
    as (new & Hres & _ & _ & Hfrom & _).
  { constructor. }
  { constructor. }
  cbn [app] in Hres. subst new.
  destruct (Hfrom e He) as (b & r & a & Heq & [Hc _] & _).
  destruct (entry_of_url self r e Hc) as (x & Hx & _).
  exists r, x. split; [|split; [exact Hx|split; [exact Hc|]]].
  - rewrite Heq. apply in_or_app. right. now left.
  - intros Hcan Hs. exact (canonical_field_round_trip self r x e Hx Hc Hcan Hs).
Qed.

Lemma C8_canonical_round_trip_witness :
  exists record x,
    In record (fst (Csv.reader [sample_row]))
    /\ nth_error record 1 = Some x
    /\ entry_of sample_feed record = Some sample_entry
    /\ (Urllib.canonical x = true ->
        Utf8.no_surrogates (url sample_entry) = true ->
        percent_encode (url sample_entry) = x).
Proof.
  apply (C8_canonical_round_trip empty_store sample_feed [sample_row] initial
           [sample_entry]
           (snd (_process_rows empty_store sample_feed [sample_row] initial))).
  - vm_compute. reflexivity.
  - left. reflexivity.
Defined.

(** ** Failures of the transport and of the server *)

(** X1: when [requests.get] raises, [get] lets the exception through:
    one request was sent, only the INFO record was logged, and nothing
    is retried. *)
Theorem X1_transport_failure_propagates store requests_get self offset w err :
  requests_get (request_with self (resolve_offset_spec store self offset))
  = inl err ->
  get store requests_get self offset w
  = (Raises (Builtin err),
     mkWorld (log w ++ [(INFO, Format "Fetching {} feed with last offset: {}"
                                  [FVal (PyStr (self_feed self));
                                   FVal (resolve_offset_spec store self offset)])])
             (wire w ++ [request_with self (resolve_offset_spec store self offset)])).
Proof.
  intros Hnet. unfold request_with in Hnet.
  unfold get. rewrite resolve_phase, bind_ret.
  unfold bind at 1. cbn [logging].
  unfold bind at 1. unfold send at 1. cbn [log wire].
  rewrite Hnet. reflexivity.
Qed.

Lemma X1_transport_failure_propagates_witness :
  get empty_store (fun _ => inl (RequestException "timed out")) sample_feed
      (PyStr "7") initial
  = (Raises (Builtin (RequestException "timed out")),
     mkWorld [(INFO, Format "Fetching {} feed with last offset: {}"
                            [FVal (PyStr "phishtank"); FVal (PyStr "7")])]
             [request_with sample_feed (PyStr "7")]).
Proof.
  apply (X1_transport_failure_propagates empty_store
           (fun _ => inl (RequestException "timed out")) sample_feed
           (PyStr "7") initial (RequestException "timed out")).
  reflexivity.
Defined.

(** X2: for every response that is not [ok], [get] logs three records,
    the last an ERROR with the status, the body (the empty string for
    status 404, else the UTF-8 bytes of the text) and the headers, sends
    one request, and raises a [FetchException] built from [None]. *)
Theorem X2_error_response_is_logged store requests_get self offset w response :
  requests_get (request_with self (resolve_offset_spec store self offset))
  = inr response ->
  ok response = false ->
  get store requests_get self offset w
  = (Raises (FetchException ObjNone),
     mkWorld
       (log w
        ++ [(INFO, Format "Fetching {} feed with last offset: {}"
                          [FVal (PyStr (self_feed self));
                           FVal (resolve_offset_spec store self offset)]);
            (DEBUG, Format "Status: {}\nResponse Headers: {}"
                           [FVal (PyInt (status_code response));
                            FHeaders (headers response)]);
            (ERROR, Format "Error fetching response:\nStatus: {}\nResponse:{}\nResponse Headers:{}"
                           [FVal (PyInt (status_code response));
                            FVal (PyStr (if (status_code response =? 404)%Z then ""
                                         else Utf8.encode (text response)));
                            FHeaders (headers response)])])
       (wire w ++ [request_with self (resolve_offset_spec store self offset)])).
Proof.
  intros Hnet Hok. after_send Hnet. rewrite Hok. cbn [negb].
  unfold bind, logging, raise. cbn [log wire].
  rewrite <- !app_assoc. reflexivity.
Qed.

Lemma X2_error_response_is_logged_witness :
  get empty_store (serve (mkResponse 404 (Utf8.of_str "not here") []))
      sample_feed (PyInt 0) initial
  = (Raises (FetchException ObjNone),
     mkWorld
       [(INFO, Format "Fetching {} feed with last offset: {}"
                      [FVal (PyStr "phishtank"); FVal (PyStr "1000")]);
        (DEBUG, Format "Status: {}\nResponse Headers: {}"
                       [FVal (PyInt 404); FHeaders []]);
        (ERROR, Format "Error fetching response:\nStatus: {}\nResponse:{}\nResponse Headers:{}"
                       [FVal (PyInt 404); FVal (PyStr ""); FHeaders []])]
       [request_with sample_feed (PyStr "1000")]).
Proof.
  apply (X2_error_response_is_logged empty_store
           (serve (mkResponse 404 (Utf8.of_str "not here") []))
           sample_feed (PyInt 0) initial
           (mkResponse 404 (Utf8.of_str "not here") []));
    reflexivity.
Defined.

(** ** The header line *)

Lemma get_one_line store requests_get self offset w response header :
  requests_get (request_with self (resolve_offset_spec store self offset))
  = inr response ->
  ok response = true ->
  Bytes.splitlines (Utf8.encode (text response)) = [header] ->
  fst (get store requests_get self offset w) = Returns [].
Proof.
  intros Hnet Hok Hl. after_send Hnet. rewrite Hok. cbn [negb].
  rewrite Hl. reflexivity.
Qed.

(** What [get] returns or raises on a successful response, from its
    lines. *)
Lemma get_ok_outcome store requests_get self offset w response header rows :
  requests_get (request_with self (resolve_offset_spec store self offset))
  = inr response ->
  ok response = true ->
  Bytes.splitlines (Utf8.encode (text response)) = header :: rows ->
  fst (get store requests_get self offset w)
  = match rows with
    | [] => Returns []
    | _ => loop_outcome store self (fst (Csv.reader rows)) (snd (Csv.reader rows))
                        [] []
    end.
Proof.
  intros Hnet Hok Hl. destruct rows as [|row rows].
  - eapply get_one_line; eauto.
  - destruct (get_rows store requests_get self offset w response Hnet Hok)
      as [w' Hget].
    { rewrite Hl. cbn. lia. }
    rewrite Hget, Hl. cbn [skipn]. apply process_rows_outcome.
Qed.

(** X3: the first line of a successful response is never looked at: two
    responses with the same lines after the first make [get] return, or
    raise, the same. *)
Theorem X3_header_is_ignored store net1 net2 self offset w1 w2
    response1 response2 header1 header2 rows :
  net1 (request_with self (resolve_offset_spec store self offset)) = inr response1 ->
  net2 (request_with self (resolve_offset_spec store self offset)) = inr response2 ->
  ok response1 = true -> ok response2 = true ->
  Bytes.splitlines (Utf8.encode (text response1)) = header1 :: rows ->
  Bytes.splitlines (Utf8.encode (text response2)) = header2 :: rows ->
  fst (get store net1 self offset w1) = fst (get store net2 self offset w2).
Proof.
  intros Hn1 Hn2 Hok1 Hok2 Hl1 Hl2.
  rewrite (get_ok_outcome store net1 self offset w1 response1 header1 rows)
    by assumption.
  rewrite (get_ok_outcome store net2 self offset w2 response2 header2 rows)
    by assumption.
  reflexivity.
Qed.

Lemma X3_header_is_ignored_witness :
  fst (get empty_store (serve (mkResponse 200 (Utf8.of_str sample_body) []))
           sample_feed (PyInt 0) initial)
  = fst (get empty_store
             (serve (mkResponse 200
                       (Utf8.of_str ("id,url" ++ nl ++ sample_row)%string) []))
             sample_feed (PyInt 0) initial).
Proof.
  apply (X3_header_is_ignored empty_store
           (serve (mkResponse 200 (Utf8.of_str sample_body) []))
           (serve (mkResponse 200 (Utf8.of_str ("id,url" ++ nl ++ sample_row)%string) []))
           sample_feed (PyInt 0) initial initial
           (mkResponse 200 (Utf8.of_str sample_body) [])
           (mkResponse 200 (Utf8.of_str ("id,url" ++ nl ++ sample_row)%string) [])
           "header" "id,url" [sample_row]);
    try reflexivity; vm_compute; reflexivity.
Defined.

(** ** How the row processor ends *)

Lemma index_0_error {A} (l : list A) (e : pyerr) :
  index l 0 = inl e -> l = [] /\ e = IndexError.
Proof.
  destruct l; cbn; [|discriminate]. intros H. injection H as <-. auto.
Qed.

Lemma loop_outcome_cases store self records stop :
  forall entries urls_seen,
    match loop_outcome store self records stop entries urls_seen with
    | Returns _ => stop = None /\ Forall (fun record => record <> []) records
    | Raises e =>
        (e = Builtin IndexError /\ Exists (fun record => record = []) records)
        \/ (exists reason,
              e = Builtin (CsvError reason) /\ stop = Some reason
              /\ Forall (fun record => record <> []) records)
    end.
Proof.
  induction records as [|record more IH]; intros entries urls_seen;
    cbn [loop_outcome].
  - destruct stop as [reason|]; [right; exists reason|]; auto.
  - destruct (index record 0) as [e|p] eqn:Hp.
    + apply index_0_error in Hp. destruct Hp as [-> ->]. left. auto.
    + assert (Hne : record <> []) by (intros ->; discriminate).
      assert (Hgo : forall entries' seen',
                 match loop_outcome store self more stop entries' seen' with
                 | Returns _ =>
                     stop = None
                     /\ Forall (fun record => record <> []) (record :: more)
                 | Raises e =>
                     (e = Builtin IndexError
                      /\ Exists (fun record => record = []) (record :: more))
                     \/ (exists reason,
                           e = Builtin (CsvError reason) /\ stop = Some reason
                           /\ Forall (fun record => record <> []) (record :: more))
                 end).
      { intros entries' seen'. specialize (IH entries' seen').
        destruct (loop_outcome store self more stop entries' seen') as [res|e].
        - destruct IH. auto.
        - destruct IH as [[-> Hex]|(reason & -> & Hs & Hf)].
          + left. auto.
          + right. exists reason. auto. }
      destruct (extract record) as [e|[[u st] vt]]; [apply Hgo|].
      destruct (exists_ store u || contains (clean_url store u) urls_seen);
        apply Hgo.
Qed.

(** X4: [_process_rows] returns exactly when the csv reader yields no
    error and no record without fields; otherwise it raises the
    IndexError of [record[0]] for a record without fields, or the
    [csv.Error] of the reader; a field that cannot be decoded never makes
    it raise. *)
Theorem X4_how_process_rows_ends store self rows w :
  match fst (_process_rows store self rows w) with
  | Returns _ =>
      snd (Csv.reader rows) = None
      /\ Forall (fun record => record <> []) (fst (Csv.reader rows))
  | Raises e =>
      (e = Builtin IndexError
       /\ Exists (fun record => record = []) (fst (Csv.reader rows)))
      \/ (exists reason,
            e = Builtin (CsvError reason)
            /\ snd (Csv.reader rows) = Some reason
            /\ Forall (fun record => record <> []) (fst (Csv.reader rows)))
  end.
Proof. rewrite process_rows_outcome. apply loop_outcome_cases. Qed.

(** ** Order and content of the entries *)

Lemma loop_keeps_order store self records stop :
  forall entries urls_seen res,
    loop_outcome store self records stop entries urls_seen = Returns res ->
    exists new, res = entries ++ new /\ subseq new (entries_of self records).
Proof.
  induction records as [|record more IH]; intros entries urls_seen res Hres;
    cbn [loop_outcome] in Hres.
  - destruct stop; [discriminate|]. injection Hres as <-.
    exists []. rewrite app_nil_r. split; [reflexivity | constructor].
  - unfold entries_of. cbn [flat_map]. fold (entries_of self more).
    unfold entry_of at 1.
    destruct (index record 0) as [e|p]; [discriminate|].
    destruct (extract record) as [e|[[u st] vt]].
    + cbn [app]. eauto.
    + destruct (exists_ store u || contains (clean_url store u) urls_seen).
      * destruct (IH _ _ _ Hres) as (new & -> & Hsub).
        exists new. split; [reflexivity|]. cbn [app]. now constructor.
      * destruct (IH _ _ _ Hres) as (new & -> & Hsub).
        exists (mkPhish (PyStr p) u (self_feed self) st vt :: new).
        rewrite <- app_assoc. split; [reflexivity|]. cbn [app]. now constructor.
Qed.

(** X5: the entries [_process_rows] returns are, in the order of the
    rows, some of the entries of the records whose fields can be
    extracted: nothing is reordered and nothing is invented. *)
Theorem X5_order_is_kept store self rows w res w' :
  _process_rows store self rows w = (Returns res, w') ->
  subseq res (entries_of self (fst (Csv.reader rows))).
Proof.
  intros Hrun.
  pose proof (process_rows_outcome store self rows w) as Hout.
  rewrite Hrun in Hout. cbn [fst] in Hout. symmetry in Hout.
  destruct (loop_keeps_order store self _ _ [] [] res Hout) as (new & -> & Hsub).
  exact Hsub.
Qed.

Lemma X5_order_is_kept_witness :
  subseq [sample_entry]
         (entries_of sample_feed (fst (Csv.reader [short_row; sample_row; sample_row]))).
Proof.
  apply (X5_order_is_kept empty_store sample_feed
           [short_row; sample_row; sample_row] initial [sample_entry]
           (snd (_process_rows empty_store sample_feed
                   [short_row; sample_row; sample_row] initial))).
  vm_compute. reflexivity.
Defined.

Lemma entry_of_fields (self : PhishtankFeed) (record : list string) (e : Phish) :
  entry_of self record = Some e ->
  exists first field1,
    nth_error record 0 = Some first /\ pid e = PyStr first
    /\ nth_error record 1 = Some field1
    /\ Utf8.decode (Urllib.unquote field1) = inr (url e)
    /\ nth_error record 3 = Some (submission_time e)
    /\ nth_error record 5 = Some (verify_time e)
    /\ feed e = self_feed self.
Proof.
  unfold entry_of, extract, index.
  destruct (nth_error record 0) as [first|]; [|discriminate].
  destruct (nth_error record 1) as [x|]; [|discriminate].
  destruct (Utf8.decode (Urllib.unquote x)) as [err|u] eqn:Hd; [discriminate|].
  destruct (nth_error record 3) as [st|]; [|discriminate].
  destruct (nth_error record 5) as [vt|]; [|discriminate].
  intros H. injection H as <-. exists first, x. cbn. auto 10.
Qed.

(** X6: every entry [_process_rows] returns was read from one record of
    the batch: its identifier is column 0 as a byte string, its URL the
    decoded column 1, its submission and verification times columns 3
    and 5, and its feed name the feed name of the client; columns 2 and 4
    and any column after 5 appear nowhere. *)
Theorem X6_columns_of_an_entry store self rows w res w' e :
  _process_rows store self rows w = (Returns res, w') ->
  In e res ->
  exists record first field1,
    In record (fst (Csv.reader rows))
    /\ nth_error record 0 = Some first /\ pid e = PyStr first
    /\ nth_error record 1 = Some field1
    /\ Utf8.decode (Urllib.unquote field1) = inr (url e)
    /\ nth_error record 3 = Some (submission_time e)
    /\ nth_error record 5 = Some (verify_time e)
    /\ feed e = self_feed self.
Proof.
  intros Hrun He.
  pose proof (process_rows_outcome store self rows w) as Hout.
  rewrite Hrun in Hout. cbn [fst] in Hout. symmetry in Hout.
  destruct (loop_spec store self _ _ [] [] res Hout eq_refl)
    as (new & Hres & _ & _ & Hfrom & _).
  { constructor. }
  { constructor. }
  cbn [app] in Hres. subst new.
  destruct (Hfrom e He) as (b & r & a & Heq & [Hc _] & _).
  destruct (entry_of_fields self r e Hc) as (first & x & H).
  exists r, first, x. split; [|exact H].
  rewrite Heq. apply in_or_app. right. now left.
Qed.

Lemma X6_columns_of_an_entry_witness :
  exists record first field1,
    In record (fst (Csv.reader [sample_row]))
    /\ nth_error record 0 = Some first /\ pid sample_entry = PyStr first
    /\ nth_error record 1 = Some field1
    /\ Utf8.decode (Urllib.unquote field1) = inr (url sample_entry)
    /\ nth_error record 3 = Some (submission_time sample_entry)
    /\ nth_error record 5 = Some (verify_time sample_entry)
    /\ feed sample_entry = self_feed sample_feed.
Proof.
  apply (X6_columns_of_an_entry empty_store sample_feed [sample_row] initial
           [sample_entry]
           (snd (_process_rows empty_store sample_feed [sample_row] initial))).
  - vm_compute. reflexivity.
  - left. reflexivity.
Defined.

(** ** What the row processor logs *)

Lemma for_records_log store self records stop :
  forall entries urls_seen w res w',
    for_records store self records stop entries urls_seen w = (Returns res, w') ->
    log w' = log w ++ flat_map row_log records /\ wire w' = wire w.
Proof.
  induction records as [|record more IH]; intros entries urls_seen w res w' Hrun;
    cbn [for_records] in Hrun.
  - destruct stop; [discriminate|]. injection Hrun as <- <-.
    cbn [flat_map]. now rewrite app_nil_r.
  - cbn [flat_map]. unfold row_log at 1.
    unfold bind at 1 in Hrun. cbn [logging] in Hrun.
    unfold bind at 1 in Hrun.
    destruct (index record 0) as [e|p]; [discriminate|]. cbn [lift ret] in Hrun.
    destruct (extract record) as [e|[[u st] vt]].
    + unfold bind at 1 in Hrun. cbn [logging log wire] in Hrun.
      destruct (IH _ _ _ _ _ Hrun) as [Hl Hw]. cbn [log wire] in Hl, Hw.
      split; [|exact Hw]. rewrite Hl, <- !app_assoc. reflexivity.
    + assert (Hgo : forall entries' seen',
                 for_records store self more stop entries' seen'
                   {| log := log w ++ [(DEBUG, Format "csv record: {}" [FList record])];
                      wire := wire w |} = (Returns res, w') ->
                 log w' = log w ++ ((DEBUG, Format "csv record: {}" [FList record])
                                    :: []) ++ flat_map row_log more
                 /\ wire w' = wire w).
      { intros entries' seen' H. destruct (IH _ _ _ _ _ H) as [Hl Hw].
        cbn [log wire] in Hl, Hw. split; [|exact Hw].
        rewrite Hl, <- !app_assoc. reflexivity. }
      destruct (exists_ store u || contains (clean_url store u) urls_seen);
        eapply Hgo; eauto.
Qed.

(** X7: when [_process_rows] returns, it has logged, after what was
    there, one DEBUG record for each record in order, an ERROR record
    after the DEBUG record of each record whose fields cannot be
    extracted, nothing for a record dropped as known or as seen, and at
    the end one INFO record with the number of entries it returns; it
    sends no request. *)
Theorem X7_log_of_a_batch store self rows w res w' :
  _process_rows store self rows w = (Returns res, w') ->
  log w' = log w ++ flat_map row_log (fst (Csv.reader rows))
           ++ [(INFO, Format "processed {} CSV entries"
                             [FVal (PyInt (Z.of_nat (List.length res)))])]
  /\ wire w' = wire w.
Proof.
  unfold _process_rows. destruct (Csv.reader rows) as [records stop].
  cbn [fst]. unfold bind at 1.
  destruct (for_records store self records stop [] [] w) as [[entries|e] w1] eqn:Hloop;
    [|discriminate].
  destruct (for_records_log _ _ _ _ _ _ _ _ _ Hloop) as [Hl Hw].
  unfold bind, logging, ret. cbn [log wire]. intros H. injection H as <- <-.
  cbn [log wire]. rewrite Hl, Hw, <- app_assoc. auto.
Qed.

Lemma X7_log_of_a_batch_witness :
  log (snd (_process_rows empty_store sample_feed [short_row; sample_row; sample_row]
              initial))
  = log initial
    ++ flat_map row_log (fst (Csv.reader [short_row; sample_row; sample_row]))
    ++ [(INFO, Format "processed {} CSV entries"
                      [FVal (PyInt (Z.of_nat (List.length [sample_entry])))])]
  /\ wire (snd (_process_rows empty_store sample_feed
                  [short_row; sample_row; sample_row] initial))
     = wire initial.
Proof.
  apply (X7_log_of_a_batch empty_store sample_feed
           [short_row; sample_row; sample_row] initial [sample_entry]).
  vm_compute. reflexivity.
Defined.

(** ** The csv reader on plain rows *)

Module CsvFacts.

Import Bytes Csv.

Lemma length_snoc (f : string) (c : ascii) :
  String.length (snoc f c) = S (String.length f).
Proof. unfold snoc. induction f as [|a f IH]; cbn; [reflexivity | now rewrite IH]. Qed.

Lemma snoc_append (f : string) (c : ascii) (p : string) :
  (snoc f c ++ p)%string = (f ++ String c p)%string.
Proof. unfold snoc. induction f as [|a f IH]; cbn; [reflexivity | now rewrite IH]. Qed.

Lemma plain_char_inv (c : ascii) :
  plain_char c = true ->
  (c =? quotechar)%char = false /\ (c =? NUL)%char = false
  /\ is_linebreak c = false /\ is_eol c = false.
Proof.
  unfold plain_char. rewrite negb_true_iff, !orb_false_iff.
  intros [[Hq Hn] Hl]. repeat split; auto.
  unfold is_eol. unfold is_linebreak in Hl. now rewrite Hl, Hn.
Qed.

(** The parser inside a record, on the rest of a plain row. *)
Lemma parse_line_plain (rest : string) :
  forall (st : ParserState) (fs : list string) (f : string),
    st = IN_FIELD \/ (st = START_FIELD /\ f = "") ->
    plain_chars rest = true ->
    (N.of_nat (String.length f + String.length rest) <= field_limit)%N ->
    parse_line (mkReader st fs f (N.of_nat (String.length f))) rest
    = inr (mkReader START_RECORD (fs ++ prepend f (split "," rest)) "" 0).
Proof.
  induction rest as [|c rest IH]; intros st fs f Hst Hplain Hlen.
  - cbn [parse_line split prepend]. rewrite append_nil_r.
    destruct Hst as [->|[-> ->]]; reflexivity.
  - cbn [plain_chars] in Hplain. apply andb_true_iff in Hplain.
    destruct Hplain as [Hc Hplain].
    destruct (plain_char_inv c Hc) as (Hq & Hn & Hl & He).
    cbn [String.length] in Hlen.
    assert (Hroom : (field_limit <=? N.of_nat (String.length f))%N = false).
    { apply N.leb_gt. lia. }
    cbn [parse_line split]. rewrite Hn.
    destruct (c =? ",")%char eqn:Hd.
    + (* a comma ends the field *)
      assert (Hstep : parse_process_char
                        (mkReader st fs f (N.of_nat (String.length f))) c
                      = inr (mkReader START_FIELD (fs ++ [f]) "" 0)).
      { destruct Hst as [->|[-> ->]];
          unfold parse_process_char, start_field; cbn [state];
          rewrite He, ?Hq; unfold delimiter; rewrite Hd; reflexivity. }
      rewrite Hstep.
      change 0%N with (N.of_nat (String.length "")).
      rewrite (IH START_FIELD (fs ++ [f]) "") by (auto; cbn; lia).
      cbn [prepend]. rewrite append_nil_r, <- app_assoc.
      destruct (split "," rest) as [|p ps] eqn:Es; [now apply split_not_nil in Es|].
      reflexivity.
    + (* any other character goes into the field *)
      assert (Hstep : parse_process_char
                        (mkReader st fs f (N.of_nat (String.length f))) c
                      = inr (mkReader IN_FIELD fs (snoc f c)
                                      (N.of_nat (String.length (snoc f c))))).
      { rewrite length_snoc, Nat2N.inj_succ, <- N.add_1_r.
        destruct Hst as [->|[-> ->]];
          unfold parse_process_char, start_field, parse_add_char;
          cbn [state field_len fields field];
          rewrite He, ?Hq; unfold delimiter; rewrite Hd;
          cbn [String.length N.of_nat] in *; rewrite Hroom; reflexivity. }
      rewrite Hstep.
      rewrite (IH IN_FIELD fs (snoc f c)) by (auto; rewrite length_snoc; lia).
      destruct (split "," rest) as [|p ps] eqn:Es; [now apply split_not_nil in Es|].
      cbn [prepend]. now rewrite snoc_append.
Qed.

Lemma plain_row_inv (line : string) :
  plain_row line = true ->
  plain_chars line = true /\ (N.of_nat (String.length line) <= field_limit)%N.
Proof.
  unfold plain_row. rewrite andb_true_iff. intros [H1 H2].
  split; [exact H1 | now apply N.leb_le].
Qed.

(** One plain row is one record. *)
Lemma parse_row_plain (line : string) :
  plain_row line = true ->
  parse_line parse_reset line
  = inr (mkReader START_RECORD (record_of_line line) "" 0).
Proof.
  intros Hp. apply plain_row_inv in Hp. destruct Hp as [Hplain Hlen].
  destruct line as [|c rest]; [reflexivity|].
  assert (Hsame : parse_line parse_reset (String c rest)
                  = parse_line (mkReader START_FIELD [] "" (N.of_nat (String.length "")))
                               (String c rest)).
  { cbn [plain_chars] in Hplain. apply andb_true_iff in Hplain.
    destruct Hplain as [Hc _].
    destruct (plain_char_inv c Hc) as (Hq & Hn & Hl & He).
    cbn [parse_line]. rewrite Hn.
    unfold parse_process_char, parse_reset. cbn [state]. rewrite Hn, Hl.
    reflexivity. }
  rewrite Hsame.
  rewrite (parse_line_plain (String c rest) START_FIELD [] "") by auto.
  unfold record_of_line. cbn [String.eqb app].
  destruct (split "," (String c rest)) as [|p ps] eqn:Es;
    [now apply split_not_nil in Es|].
  reflexivity.
Qed.

(** On plain rows the reader yields one record for each row and no error. *)
Lemma reader_plain (rows : list string) :
  Forall (fun line => plain_row line = true) rows ->
  reader rows = (map record_of_line rows, None).
Proof.
  unfold reader. induction 1 as [|line rows Hline _ IH]; [reflexivity|].
  cbn [iternext map]. rewrite (parse_row_plain line Hline).
  cbn [state ParserState_eqb fields]. now rewrite IH.
Qed.

Lemma record_of_line_nil (line : string) :
  record_of_line line = [] <-> line = "".
Proof.
  unfold record_of_line. split.
  - destruct (line =? "")%string eqn:E; [now apply String.eqb_eq in E|].
    intros H. now apply split_not_nil in H.
  - intros ->. reflexivity.
Qed.

End CsvFacts.

(** ** Batches of plain rows *)

Lemma process_plain_rows store self rows w :
  Forall (fun line => plain_row line = true) rows ->
  fst (_process_rows store self rows w)
  = loop_outcome store self (map record_of_line rows) None [] [].
Proof.
  intros Hp. rewrite process_rows_outcome, (CsvFacts.reader_plain rows Hp).
  reflexivity.
Qed.

(** X8: a batch of plain rows (no quote character, NUL or line break,
    within the field limit) makes [_process_rows] raise IndexError when
    one of its rows is the empty string, and return otherwise. *)
Theorem X8_blank_row_aborts_plain_batch store self rows w :
  Forall (fun line => plain_row line = true) rows ->
  (In "" rows -> fst (_process_rows store self rows w) = Raises (Builtin IndexError))
  /\ (~ In "" rows -> exists res, fst (_process_rows store self rows w) = Returns res).
Proof.
  intros Hp. rewrite (process_plain_rows store self rows w Hp).
  pose proof (loop_outcome_cases store self (map record_of_line rows) None [] [])
    as Hc.
  destruct (loop_outcome store self (map record_of_line rows) None [] [])
    as [res|e]; split.
  - intros Hin. destruct Hc as [_ Hf]. rewrite Forall_forall in Hf.
    exfalso. apply (Hf (record_of_line "")); [|reflexivity].
    now apply in_map.
  - intros _. now exists res.
  - intros _. destruct Hc as [[-> _]|(reason & _ & Hs & _)];
      [reflexivity | discriminate].
  - intros Hno. exfalso.
    destruct Hc as [[_ Hex]|(reason & _ & Hs & _)]; [|discriminate].
    apply Exists_exists in Hex. destruct Hex as (record & Hin & ->).
    apply in_map_iff in Hin. destruct Hin as (line & Hl & Hin).
    apply CsvFacts.record_of_line_nil in Hl. now subst line.
Qed.

Lemma X8_blank_row_aborts_plain_batch_witness :
  (In "" [sample_row; ""; sample_row] ->
   fst (_process_rows empty_store sample_feed [sample_row; ""; sample_row] initial)
   = Raises (Builtin IndexError))
  /\ (~ In "" [sample_row; ""; sample_row] ->
      exists res,
        fst (_process_rows empty_store sample_feed [sample_row; ""; sample_row]
               initial) = Returns res).
Proof.
  apply (X8_blank_row_aborts_plain_batch empty_store sample_feed
           [sample_row; ""; sample_row] initial).
  repeat constructor.
Defined.

Lemma loop_drop store self record after stop first :
  index record 0 = inr first ->
  (forall e, ~ candidate store self record e) ->
  forall before entries urls_seen,
    loop_outcome store self (before ++ record :: after) stop entries urls_seen
    = loop_outcome store self (before ++ after) stop entries urls_seen.
Proof.
  intros Hfirst Hnot.
  induction before as [|r before IH]; intros entries urls_seen; cbn [app loop_outcome].
  - rewrite Hfirst.
    destruct (extract record) as [e|[[u st] vt]] eqn:Hx; [reflexivity|].
    destruct (exists_ store u) eqn:Hk; [reflexivity|].
    exfalso. apply (Hnot (mkPhish (PyStr first) u (self_feed self) st vt)).
    split; [|exact Hk]. unfold entry_of. now rewrite Hfirst, Hx.
  - destruct (index r 0); [reflexivity|].
    destruct (extract r) as [e|[[u st] vt]]; [apply IH|].
    destruct (exists_ store u || contains (clean_url store u) urls_seen); apply IH.
Qed.

(** X9: in a batch of plain rows, a non-empty row that is no candidate
    (its fields cannot be extracted, or the store knows its URL) has no
    effect on what [_process_rows] returns or raises: the batch without
    it gives the same. *)
Theorem X9_dropped_row_has_no_effect store self before row after w :
  Forall (fun line => plain_row line = true) (before ++ row :: after) ->
  row <> "" ->
  (forall e, ~ candidate store self (record_of_line row) e) ->
  fst (_process_rows store self (before ++ row :: after) w)
  = fst (_process_rows store self (before ++ after) w).
Proof.
  intros Hp Hne Hnot.
  assert (Hp' : Forall (fun line => plain_row line = true) (before ++ after)).
  { apply Forall_app in Hp. destruct Hp as [Hb Ha]. apply Forall_app.
    split; [exact Hb | now inversion Ha]. }
  rewrite !process_plain_rows by assumption.
  rewrite !map_app. cbn [map].
  destruct (index (record_of_line row) 0) as [e|first] eqn:Hfirst.
  - apply index_0_error in Hfirst. destruct Hfirst as [Hnil _].
    apply CsvFacts.record_of_line_nil in Hnil. contradiction.
  - now apply loop_drop with first.
Qed.

Lemma X9_dropped_row_has_no_effect_witness :
  fst (_process_rows empty_store sample_feed ([sample_row] ++ short_row :: [known_row])
         initial)
  = fst (_process_rows empty_store sample_feed ([sample_row] ++ [known_row]) initial).
Proof.
  apply (X9_dropped_row_has_no_effect empty_store sample_feed
           [sample_row] short_row [known_row] initial).
  - repeat constructor.
  - discriminate.
  - intros e [He _]. vm_compute in He. discriminate.
Defined.

Lemma loop_app store self r2 stop :
  forall r1 entries urls_seen,
    urls_seen = map (normalized store) entries ->
    match loop_outcome store self r1 None entries urls_seen with
    | Returns res1 =>
        loop_outcome store self (r1 ++ r2) stop entries urls_seen
        = loop_outcome store self r2 stop res1 (map (normalized store) res1)
    | Raises e =>
        loop_outcome store self (r1 ++ r2) stop entries urls_seen = Raises e
    end.
Proof.
  induction r1 as [|record more IH]; intros entries urls_seen Hseen;
    cbn [app loop_outcome].
  - now rewrite Hseen.
  - destruct (index record 0) as [e|p]; [reflexivity|].
    destruct (extract record) as [e|[[u st] vt]]; [now apply IH|].
    destruct (exists_ store u || contains (clean_url store u) urls_seen);
      [now apply IH|].
    apply IH. rewrite map_app, Hseen. reflexivity.
Qed.

Lemma loop_covers store self :
  forall r1 entries urls_seen res,
    loop_outcome store self r1 None entries urls_seen = Returns res ->
    urls_seen = map (normalized store) entries ->
    (forall x, In x urls_seen -> In x (map (normalized store) res))
    /\ (forall record,
          In record r1 ->
          record <> []
          /\ forall e, entry_of self record = Some e ->
                       exists_ store (url e) = true
                       \/ In (normalized store e) (map (normalized store) res)).
Proof.
  induction r1 as [|record more IH]; intros entries urls_seen res Hres Hseen;
    cbn [loop_outcome] in Hres.
  - injection Hres as <-. rewrite <- Hseen. split; [auto | intros r []].
  - destruct (index record 0) as [err|p] eqn:Hp; [discriminate|].
    assert (Hne : record <> []) by (intros ->; discriminate).
    destruct (extract record) as [err|[[u st] vt]] eqn:Hx.
    + destruct (IH _ _ _ Hres Hseen) as [Hmono Hall].
      split; [exact Hmono|]. intros r [<-|Hin]; [|now apply Hall].
      split; [exact Hne|]. intros e He. unfold entry_of in He.
      rewrite Hp, Hx in He. discriminate.
    + set (e0 := mkPhish (PyStr p) u (self_feed self) st vt) in *.
      assert (Hsome : entry_of self record = Some e0).
      { unfold entry_of. now rewrite Hp, Hx. }
      destruct (exists_ store u) eqn:Hk; cbn [orb] in Hres.
      * destruct (IH _ _ _ Hres Hseen) as [Hmono Hall].
        split; [exact Hmono|]. intros r [<-|Hin]; [|now apply Hall].
        split; [exact Hne|]. intros e He. rewrite Hsome in He.
        injection He as <-. now left.
      * destruct (contains (clean_url store u) urls_seen) eqn:Hc.
        -- destruct (IH _ _ _ Hres Hseen) as [Hmono Hall].
           split; [exact Hmono|]. intros r [<-|Hin]; [|now apply Hall].
           split; [exact Hne|]. intros e He. rewrite Hsome in He.
           injection He as <-. right. apply Hmono. now apply contains_In.
        -- destruct (IH (entries ++ [e0]) (urls_seen ++ [clean_url store u]) res Hres)
             as [Hmono Hall].
           { rewrite map_app, Hseen. reflexivity. }
           split.
           ++ intros x Hin. apply Hmono, in_or_app. now left.
           ++ intros r [<-|Hin]; [|now apply Hall].
              split; [exact Hne|]. intros e He. rewrite Hsome in He.
              injection He as <-. right. apply Hmono, in_or_app. right. now left.
Qed.

Lemma loop_all_dropped store self :
  forall r2 entries urls_seen,
    (forall record,
       In record r2 ->
       record <> []
       /\ forall e, entry_of self record = Some e ->
                    exists_ store (url e) = true \/ In (normalized store e) urls_seen) ->
    loop_outcome store self r2 None entries urls_seen = Returns entries.
Proof.
  induction r2 as [|record more IH]; intros entries urls_seen Hall;
    cbn [loop_outcome]; [reflexivity|].
  destruct (Hall record (or_introl eq_refl)) as [Hne Hrec].
  assert (Hmore : forall r, In r more ->
            r <> []
            /\ forall e, entry_of self r = Some e ->
                         exists_ store (url e) = true
                         \/ In (normalized store e) urls_seen).
  { intros r Hin. apply Hall. now right. }
  destruct (index record 0) as [err|p] eqn:Hp.
  - apply index_0_error in Hp. destruct Hp. contradiction.
  - destruct (extract record) as [err|[[u st] vt]] eqn:Hx; [now apply IH|].
    destruct (Hrec (mkPhish (PyStr p) u (self_feed self) st vt)) as [Hk|Hin].
    { unfold entry_of. now rewrite Hp, Hx. }
    + cbn [url] in Hk. rewrite Hk. cbn [orb]. now apply IH.
    + apply contains_In in Hin. unfold normalized in Hin. cbn [url] in Hin.
      rewrite Hin, orb_true_r. now apply IH.
Qed.

(** X10: in a batch of plain rows, rows that repeat rows of the batch
    and come after them add nothing: [_process_rows] returns, or raises,
    what it does without the repetitions; a batch fed twice gives what it
    gives once. *)
Theorem X10_repeated_rows_add_nothing store self rows again w :
  Forall (fun line => plain_row line = true) rows ->
  incl again rows ->
  fst (_process_rows store self (rows ++ again) w)
  = fst (_process_rows store self rows w).
Proof.
  intros Hp Hincl.
  assert (Hp2 : Forall (fun line => plain_row line = true) (rows ++ again)).
  { apply Forall_app. split; [exact Hp|]. rewrite Forall_forall in *.
    intros line Hin. apply Hp, Hincl, Hin. }
  rewrite !process_plain_rows by assumption. rewrite map_app.
  pose proof (loop_app store self (map record_of_line again) None
                (map record_of_line rows) [] [] eq_refl) as Happ.
  destruct (loop_outcome store self (map record_of_line rows) None [] [])
    as [res|e] eqn:Hloop; [|exact Happ].
  rewrite Happ. apply loop_all_dropped.
  destruct (loop_covers store self _ _ _ _ Hloop eq_refl) as [_ Hall].
  intros record Hin. apply Hall.
  apply in_map_iff in Hin. destruct Hin as (line & <- & Hin).
  apply in_map, Hincl, Hin.
Qed.

Lemma X10_repeated_rows_add_nothing_witness :
  fst (_process_rows empty_store sample_feed
         ([known_row; sample_row] ++ [sample_row; known_row]) initial)
  = fst (_process_rows empty_store sample_feed [known_row; sample_row] initial).
Proof.
  apply (X10_repeated_rows_add_nothing empty_store sample_feed
           [known_row; sample_row] [sample_row; known_row] initial).
  - repeat constructor.
  - intros line [<-|[<-|[]]]; cbn; auto.
Defined.

(** ** URLs that need no decoding *)

Lemma split_without_sep (x : string) :
  ascii_no_percent x = true -> Bytes.split "%" x = [x].
Proof.
  induction x as [|c rest IH]; [reflexivity|].
  cbn [ascii_no_percent Bytes.split]. rewrite !andb_true_iff.
  intros [[Hc _] Hrest]. apply negb_true_iff in Hc. rewrite Hc, (IH Hrest).
  reflexivity.
Qed.

Lemma decode_ascii (x : string) :
  ascii_no_percent x = true -> Utf8.decode x = inr (Utf8.of_str x).
Proof.
  induction x as [|c rest IH]; [reflexivity|].
  cbn [ascii_no_percent]. rewrite !andb_true_iff. intros [[_ Hc] Hrest].
  cbn [Utf8.decode Utf8.of_str]. unfold Utf8.utf8_code_length. rewrite Hc.
  rewrite (IH Hrest). reflexivity.
Qed.

(** X11: a URL field of ASCII characters without [%] is stored as it
    is: the URL of the entry is the text of the field. *)
Theorem X11_plain_url_is_stored_unchanged self record x e :
  nth_error record 1 = Some x ->
  ascii_no_percent x = true ->
  entry_of self record = Some e ->
  url e = Utf8.of_str x.
Proof.
  intros Hx Hplain He.
  destruct (entry_of_url self record e He) as (x' & Hx' & Hd).
  rewrite Hx in Hx'. injection Hx' as <-.
  unfold Urllib.unquote in Hd. rewrite (split_without_sep x Hplain) in Hd.
  rewrite (decode_ascii x Hplain) in Hd. now injection Hd as <-.
Qed.

Lemma X11_plain_url_is_stored_unchanged_witness :
  url (mkPhish (PyStr "7") (Utf8.of_str "http://evil.example/b") "phishtank" "t3" "t5")
  = Utf8.of_str "http://evil.example/b".
Proof.
  apply (X11_plain_url_is_stored_unchanged sample_feed
           ["7"; "http://evil.example/b"; "c2"; "t3"; "c4"; "t5"]
           "http://evil.example/b"
           (mkPhish (PyStr "7") (Utf8.of_str "http://evil.example/b")
                    "phishtank" "t3" "t5"));
    reflexivity.
Defined.

(** ** From a URL to its field and back *)

Module RoundTrip.

Import Utf8.

Local Open Scope N_scope.

(** What the decoder finds in the bytes the encoder writes. *)
Definition written_check (x : ascii) : bool :=
  let n := ord x in
  implb (n <? 64)
        (is_cont (byte (N.lor 0x80 n))
         && (N.land (ord (byte (N.lor 0x80 n))) 0x3f =? n)
         && (ord (byte (N.lor 0x80 n)) =? 0x80 + n))
  && implb ((2 <=? n) && (n <? 32))
           ((utf8_code_length (ord (byte (N.lor 0xc0 n))) =? 2)
            && (N.land (ord (byte (N.lor 0xc0 n))) 0x1f =? n))
  && implb (n <? 16)
           ((utf8_code_length (ord (byte (N.lor 0xe0 n))) =? 3)
            && (N.land (ord (byte (N.lor 0xe0 n))) 0x0f =? n)
            && Bool.eqb (ord (byte (N.lor 0xe0 n)) =? 0xE0) (n =? 0))
  && implb (n <=? 4)
           ((utf8_code_length (ord (byte (N.lor 0xf0 n))) =? 4)
            && (N.land (ord (byte (N.lor 0xf0 n))) 0x7 =? n)
            && Bool.eqb (ord (byte (N.lor 0xf0 n)) =? 0xF0) (n =? 0)
            && Bool.eqb (ord (byte (N.lor 0xf0 n)) =? 0xF4) (n =? 4)).

Lemma written_checks : forall_ascii written_check = true.
Proof. vm_compute. reflexivity. Qed.

Lemma written (n : N) : n < 256 -> written_check (byte n) = true /\ ord (byte n) = n.
Proof.
  intros Hn. split.
  - apply (forall_ascii_spec _ written_checks).
  - now apply N_ascii_embedding.
Qed.

Lemma cont_written (p : N) :
  p < 64 ->
  is_cont (byte (N.lor 0x80 p)) = true
  /\ N.land (ord (byte (N.lor 0x80 p))) 0x3f = p
  /\ ord (byte (N.lor 0x80 p)) = 0x80 + p.
Proof.
  intros Hp. destruct (written p) as [H E]; [lia|].
  unfold written_check in H. rewrite E in H.
  rewrite !andb_true_iff in H. destruct H as [[[H _] _] _].
  apply N.ltb_lt in Hp. rewrite Hp in H. cbn [implb] in H.
  rewrite !andb_true_iff in H. destruct H as [[H1 H2] H3].
  apply N.eqb_eq in H2, H3. auto.
Qed.

Lemma lead2_written (a : N) :
  2 <= a < 32 ->
  utf8_code_length (ord (byte (N.lor 0xc0 a))) = 2
  /\ N.land (ord (byte (N.lor 0xc0 a))) 0x1f = a.
Proof.
  intros Ha. destruct (written a) as [H E]; [lia|].
  unfold written_check in H. rewrite E in H.
  rewrite !andb_true_iff in H. destruct H as [[[_ H] _] _].
  assert (Hg : (2 <=? a) && (a <? 32) = true).
  { apply andb_true_iff. split; [apply N.leb_le | apply N.ltb_lt]; lia. }
  rewrite Hg in H. cbn [implb] in H.
  rewrite !andb_true_iff in H. destruct H as [H1 H2].
  apply N.eqb_eq in H1, H2. auto.
Qed.

Lemma lead3_written (a : N) :
  a < 16 ->
  utf8_code_length (ord (byte (N.lor 0xe0 a))) = 3
  /\ N.land (ord (byte (N.lor 0xe0 a))) 0x0f = a
  /\ (ord (byte (N.lor 0xe0 a)) =? 0xE0) = (a =? 0).
Proof.
  intros Ha. destruct (written a) as [H E]; [lia|].
  unfold written_check in H. rewrite E in H.
  rewrite !andb_true_iff in H. destruct H as [[[_ _] H] _].
  apply N.ltb_lt in Ha. rewrite Ha in H. cbn [implb] in H.
  rewrite !andb_true_iff in H. destruct H as [[H1 H2] H3].
  apply N.eqb_eq in H1, H2. apply Bool.eqb_prop in H3. auto.
Qed.

Lemma lead4_written (a : N) :
  a <= 4 ->
  utf8_code_length (ord (byte (N.lor 0xf0 a))) = 4
  /\ N.land (ord (byte (N.lor 0xf0 a))) 0x7 = a
  /\ (ord (byte (N.lor 0xf0 a)) =? 0xF0) = (a =? 0)
  /\ (ord (byte (N.lor 0xf0 a)) =? 0xF4) = (a =? 4).
Proof.
  intros Ha. destruct (written a) as [H E]; [lia|].
  unfold written_check in H. rewrite E in H.
  rewrite !andb_true_iff in H. destruct H as [_ H].
  apply N.leb_le in Ha. rewrite Ha in H. cbn [implb] in H.
  rewrite !andb_true_iff in H. destruct H as [[[H1 H2] H3] H4].
  apply N.eqb_eq in H1, H2. apply Bool.eqb_prop in H3, H4. auto.
Qed.

Lemma scalar_inv (ch : N) :
  scalar_value ch = true -> ch <= 0x10FFFF /\ is_high_surrogate ch = false.
Proof.
  unfold scalar_value. rewrite andb_true_iff, negb_true_iff, orb_false_iff.
  intros [H1 [H2 _]]. split; [now apply N.leb_le | exact H2].
Qed.

(** The decoder reads back the one code point the encoder wrote. *)
Lemma decode_written (ch : N) (bytes : string) :
  scalar_value ch = true ->
  decode (encode [ch] ++ bytes)%string = cons_ok ch (decode bytes).
Proof.
  intros Hs. destruct (scalar_inv ch Hs) as [Hmax Hh].
  cbn [encode].
  pose proof (N.div_mod ch 64) as E1. specialize (E1 ltac:(lia)).
  pose proof (N.mod_lt ch 64) as B1. specialize (B1 ltac:(lia)).
  set (d1 := ch / 64) in *. set (q := ch mod 64) in *.
  destruct (N.ltb_spec ch 0x80) as [H80|H80].
  - (* one byte *)
    assert (Hb : ord (byte ch) = ch) by (apply N_ascii_embedding; lia).
    cbn [append decode]. rewrite Hb.
    unfold utf8_code_length. destruct (N.ltb_spec ch 0x80); [reflexivity | lia].
  - destruct (N.ltb_spec ch 0x800) as [H800|H800].
    + (* two bytes *)
      rewrite N.shiftr_div_pow2, Utf8Facts.land_3f. change (2 ^ 6) with 64.
      fold d1 q.
      destruct (lead2_written d1) as [L1 L2]; [lia|].
      destruct (cont_written q B1) as (C1 & C2 & _).
      cbn [append decode]. rewrite L1. cbv iota. rewrite C1. cbn [negb].
      unfold ch2. rewrite L2, C2, N.shiftl_mul_pow2. change (2 ^ 6) with 64.
      replace (d1 * 64 + q) with ch by lia. reflexivity.
    + pose proof (N.div_mod d1 64) as E2. specialize (E2 ltac:(lia)).
      pose proof (N.mod_lt d1 64) as B2. specialize (B2 ltac:(lia)).
      assert (D2 : ch / 4096 = d1 / 64).
      { unfold d1. rewrite N.Div0.div_div. reflexivity. }
      set (d2 := d1 / 64) in *. set (p := d1 mod 64) in *.
      destruct (N.ltb_spec ch 0x10000) as [H10000|H10000].
      * (* three bytes *)
        rewrite append_nil_r. unfold encode3.
        rewrite !N.shiftr_div_pow2, !Utf8Facts.land_3f.
        change (2 ^ 12) with 4096. change (2 ^ 6) with 64.
        rewrite D2. fold d1 q p d2.
        destruct (lead3_written d2) as (L1 & L2 & L3); [lia|].
        destruct (cont_written p B2) as (C1 & C2 & C3).
        destruct (cont_written q B1) as (Q1 & Q2 & _).
        cbn [append decode]. rewrite L1. cbv iota.
        assert (Hok : bad3 (byte (N.lor 0xe0 d2)) (byte (N.lor 0x80 p))
                           (byte (N.lor 0x80 q)) = false).
        { unfold bad3. rewrite C1, Q1, L3, C3. cbn [negb orb].
          destruct (N.eqb_spec d2 0) as [Z|Z]; [|reflexivity].
          cbn [andb]. apply N.ltb_ge. lia. }
        rewrite Hok. unfold ch3. rewrite L2, C2, Q2, !N.shiftl_mul_pow2.
        change (2 ^ 12) with 4096. change (2 ^ 6) with 64.
        replace (d2 * 4096 + p * 64 + q) with ch by lia. reflexivity.
      * (* four bytes *)
        pose proof (N.div_mod d2 64) as E3. specialize (E3 ltac:(lia)).
        pose proof (N.mod_lt d2 64) as B3. specialize (B3 ltac:(lia)).
        assert (D3 : ch / 262144 = d2 / 64).
        { unfold d2, d1. rewrite !N.Div0.div_div. reflexivity. }
        set (d3 := d2 / 64) in *. set (r := d2 mod 64) in *.
        rewrite append_nil_r. unfold encode4.
        rewrite !N.shiftr_div_pow2, !Utf8Facts.land_3f.
        change (2 ^ 18) with 262144. change (2 ^ 12) with 4096.
        change (2 ^ 6) with 64.
        rewrite D2, D3. fold d1 q p d2 r d3.
        destruct (lead4_written d3) as (L1 & L2 & L3 & L4); [lia|].
        destruct (cont_written r B3) as (R1 & R2 & R3).
        destruct (cont_written p B2) as (C1 & C2 & _).
        destruct (cont_written q B1) as (Q1 & Q2 & _).
        cbn [append decode]. rewrite L1. cbv iota.
        assert (Hok : bad4 (byte (N.lor 0xf0 d3)) (byte (N.lor 0x80 r))
                           (byte (N.lor 0x80 p)) (byte (N.lor 0x80 q)) = false).
        { unfold bad4. rewrite R1, C1, Q1, L3, L4, R3. cbn [negb orb].
          destruct (N.eqb_spec d3 0) as [Z|Z]; cbn [andb orb].
          - destruct (N.eqb_spec d3 4); [lia|]. cbn [andb orb].
            rewrite orb_false_r. apply N.ltb_ge. lia.
          - destruct (N.eqb_spec d3 4) as [F|F]; [|reflexivity].
            cbn [andb]. apply N.ltb_ge. lia. }
        rewrite Hok. unfold ch4. rewrite L2, R2, C2, Q2, !N.shiftl_mul_pow2.
        change (2 ^ 18) with 262144. change (2 ^ 12) with 4096.
        change (2 ^ 6) with 64.
        replace (d3 * 262144 + r * 4096 + p * 64 + q) with ch by lia.
        reflexivity.
Qed.

Lemma scalar_text_cons (ch : N) (u : unicode) :
  scalar_text (ch :: u) = true -> scalar_value ch = true /\ scalar_text u = true.
Proof. unfold scalar_text. cbn [forallb]. now rewrite andb_true_iff. Qed.

(** Decoding the UTF-8 encoding of a text of scalar values gives the text. *)
Lemma decode_encode (u : unicode) :
  scalar_text u = true -> decode (encode u) = inr u.
Proof.
  induction u as [|ch u IH]; intros Hs; [reflexivity|].
  apply scalar_text_cons in Hs. destruct Hs as [Hch Hu].
  rewrite Utf8Facts.encode_cons by (now destruct (scalar_inv ch Hch)).
  rewrite decode_written by exact Hch. now rewrite (IH Hu).
Qed.

Import Urllib.

Lemma safe_not_percent (c : ascii) :
  always_safe c = true -> (c =? "%")%char = false.
Proof.
  intros H. destruct (c =? "%")%char eqn:E; [|reflexivity].
  apply Ascii.eqb_eq in E. subst c. discriminate.
Qed.

Lemma escape_decodes_check :
  forall_ascii (fun c =>
    match hextochr (hexdigit_upper (N_of_ascii c / 16))
                   (hexdigit_upper (N_of_ascii c mod 16)) with
    | Some c' => (c' =? c)%char
    | None => false
    end) = true.
Proof. vm_compute. reflexivity. Qed.

Lemma escape_decodes (c : ascii) :
  hextochr (hexdigit_upper (N_of_ascii c / 16))
           (hexdigit_upper (N_of_ascii c mod 16)) = Some c.
Proof.
  pose proof (forall_ascii_spec _ escape_decodes_check c) as H. cbv beta in H.
  destruct (hextochr _ _) as [c'|]; [|discriminate].
  apply Ascii.eqb_eq in H. now subst.
Qed.

(** Unquoting what [quote] wrote gives the bytes back. *)
Lemma unquote_quote (s : string) : unquote (quote s) = s.
Proof.
  induction s as [|c s IH]; [reflexivity|]. cbn [quote].
  destruct (always_safe c) eqn:Hs.
  - rewrite UrllibFacts.unquote_plain by (now apply safe_not_percent).
    now rewrite IH.
  - unfold percent_escape. cbn [append].
    rewrite (UrllibFacts.unquote_escape _ _ c _ (escape_decodes c)).
    now rewrite IH.
Qed.

End RoundTrip.

(** X12: a URL of Unicode scalar values, written into the feed as the
    percent-encoding of its UTF-8 bytes in a record with the columns 0, 3
    and 5, comes out of the row processor as the same URL: the entry of
    the record carries it, with the identifier and the two times. *)
Theorem X12_url_round_trip self record u first submitted verified :
  nth_error record 0 = Some first ->
  nth_error record 1 = Some (percent_encode u) ->
  nth_error record 3 = Some submitted ->
  nth_error record 5 = Some verified ->
  scalar_text u = true ->
  entry_of self record
  = Some (mkPhish (PyStr first) u (self_feed self) submitted verified).
Proof.
  intros H0 H1 H3 H5 Hs. unfold entry_of, extract, index.
  rewrite H0, H1, H3, H5. unfold percent_encode.
  rewrite RoundTrip.unquote_quote, (RoundTrip.decode_encode u Hs).
  reflexivity.
Qed.

Lemma X12_url_round_trip_witness :
  entry_of sample_feed
    ["7"; percent_encode [0x68; 0xE9; 0x20AC; 0x1F600; 0x2F]%N; "c2"; "t3"; "c4"; "t5"]
  = Some (mkPhish (PyStr "7") [0x68; 0xE9; 0x20AC; 0x1F600; 0x2F]%N
                  (self_feed sample_feed) "t3" "t5").
Proof.
  apply (X12_url_round_trip sample_feed
           ["7"; percent_encode [0x68; 0xE9; 0x20AC; 0x1F600; 0x2F]%N;
            "c2"; "t3"; "c4"; "t5"]
           [0x68; 0xE9; 0x20AC; 0x1F600; 0x2F]%N "7" "t3" "t5");
    reflexivity.
Defined.

(** ** Bounds *)

Lemma iternext_length_mid (lines : list string) :
  forall r, (List.length (fst (Csv.iternext r lines)) <= List.length lines + 1)%nat.
Proof.
  induction lines as [|line rest IH]; intros r; cbn [Csv.iternext].
  - destruct (_ || _); cbn; lia.
  - destruct (Csv.parse_line r line) as [e|r']; [cbn; lia|].
    destruct (Csv.ParserState_eqb (Csv.state r') Csv.START_RECORD).
    + specialize (IH Csv.parse_reset).
      destruct (Csv.iternext Csv.parse_reset rest) as [recs e]. cbn in *. lia.
    + specialize (IH r'). cbn [List.length]. lia.
Qed.

(** The reader yields at most one record for each line. *)
Lemma reader_length (rows : list string) :
  (List.length (fst (Csv.reader rows)) <= List.length rows)%nat.
Proof.
  unfold Csv.reader. induction rows as [|line rest IH]; [cbn; lia|].
  cbn [Csv.iternext].
  destruct (Csv.parse_line Csv.parse_reset line) as [e|r']; [cbn; lia|].
  destruct (Csv.ParserState_eqb (Csv.state r') Csv.START_RECORD).
  - destruct (Csv.iternext Csv.parse_reset rest) as [recs e]. cbn in *. lia.
  - pose proof (iternext_length_mid rest r'). cbn [List.length]. lia.
Qed.

Lemma subseq_length {A} (l1 l2 : list A) :
  subseq l1 l2 -> (List.length l1 <= List.length l2)%nat.
Proof. induction 1; cbn; lia. Qed.

Lemma entries_of_length self records :
  (List.length (entries_of self records) <= List.length records)%nat.
Proof.
  induction records as [|record more IH]; [cbn; lia|].
  unfold entries_of in *. cbn [flat_map]. rewrite length_app.
  destruct (entry_of self record); cbn; lia.
Qed.

(** X13: [_process_rows] returns at most one entry for each row it was
    given. *)
Theorem X13_at_most_one_entry_per_row store self rows w res w' :
  _process_rows store self rows w = (Returns res, w') ->
  (List.length res <= List.length rows)%nat.
Proof.
  intros Hrun.
  pose proof (process_rows_outcome store self rows w) as Hout.
  rewrite Hrun in Hout. cbn [fst] in Hout. symmetry in Hout.
  destruct (loop_keeps_order store self _ _ [] [] res Hout) as (new & -> & Hsub).
  apply subseq_length in Hsub.
  pose proof (entries_of_length self (fst (Csv.reader rows))).
  pose proof (reader_length rows). cbn [app]. lia.
Qed.

Lemma X13_at_most_one_entry_per_row_witness :
  (List.length [sample_entry] <= List.length [short_row; sample_row; sample_row])%nat.
Proof.
  apply (X13_at_most_one_entry_per_row empty_store sample_feed
           [short_row; sample_row; sample_row] initial [sample_entry]
           (snd (_process_rows empty_store sample_feed
                   [short_row; sample_row; sample_row] initial))).
  vm_compute. reflexivity.
Defined.

(** ** What [get] returns *)

Lemma get_no_line store requests_get self offset w response :
  requests_get (request_with self (resolve_offset_spec store self offset))
  = inr response ->
  ok response = true ->
  Bytes.splitlines (Utf8.encode (text response)) = [] ->
  exists x, fst (get store requests_get self offset w) = Raises x.
Proof.
  intros Hnet Hok Hl. after_send Hnet. rewrite Hok. cbn [negb]. rewrite Hl.
  eexists. reflexivity.
Qed.

Lemma get_transport_error store requests_get self offset w err :
  requests_get (request_with self (resolve_offset_spec store self offset))
  = inl err ->
  fst (get store requests_get self offset w) = Raises (Builtin err).
Proof.
  intros Hnet. unfold request_with in Hnet.
  unfold get. rewrite resolve_phase, bind_ret.
  unfold bind at 1. cbn [logging].
  unfold bind at 1. unfold send at 1. cbn [log wire].
  rewrite Hnet. reflexivity.
Qed.

(** A list [get] returns is empty or comes out of the loop over the
    records of the lines after the first. *)
Lemma get_returns_inv store requests_get self offset w res :
  fst (get store requests_get self offset w) = Returns res ->
  exists response header rows,
    requests_get (request_with self (resolve_offset_spec store self offset))
    = inr response
    /\ ok response = true
    /\ Bytes.splitlines (Utf8.encode (text response)) = header :: rows
    /\ (res = []
        \/ loop_outcome store self (fst (Csv.reader rows)) (snd (Csv.reader rows))
                        [] [] = Returns res).
Proof.
  intros Hget.
  destruct (requests_get (request_with self (resolve_offset_spec store self offset)))
    as [err|response] eqn:Hnet.
  { rewrite (get_transport_error _ _ _ _ _ _ Hnet) in Hget. discriminate. }
  destruct (ok response) eqn:Hok.
  2:{ rewrite (get_not_ok _ _ _ _ _ _ Hnet Hok) in Hget. discriminate. }
  destruct (Bytes.splitlines (Utf8.encode (text response))) as [|header rows] eqn:Hl.
  { destruct (get_no_line _ _ _ _ w _ Hnet Hok Hl) as [x Hx].
    rewrite Hx in Hget. discriminate. }
  exists response, header, rows.
  split; [reflexivity|]. split; [exact Hok|]. split; [exact Hl|].
  rewrite (get_ok_outcome _ _ _ _ w _ _ _ Hnet Hok Hl) in Hget.
  destruct rows as [|row rows].
  - injection Hget as <-. now left.
  - now right.
Qed.

(** X14: whatever list [get] returns, its entries have pairwise
    different normalised URLs, none has a URL the store knows, each
    carries the feed name of the client and a byte string as identifier,
    and there are fewer entries than lines in the body of the response. *)
Theorem X14_what_get_returns store requests_get self offset w res :
  fst (get store requests_get self offset w) = Returns res ->
  NoDup (map (normalized store) res)
  /\ Forall (fun e => exists_ store (url e) = false
                      /\ feed e = self_feed self
                      /\ exists first, pid e = PyStr first) res
  /\ exists response,
       requests_get (request_with self (resolve_offset_spec store self offset))
       = inr response
       /\ (List.length res
           < List.length (Bytes.splitlines (Utf8.encode (text response))))%nat.
Proof.
  intros Hget.
  destruct (get_returns_inv _ _ _ _ _ _ Hget)
    as (response & header & rows & Hnet & Hok & Hl & [->|Hloop]).
  - split; [constructor|]. split; [constructor|].
    exists response. split; [exact Hnet|]. rewrite Hl. cbn. lia.
  - destruct (loop_spec store self _ _ [] [] res Hloop eq_refl)
      as (new & Hres & Hn & Hf & Hfrom & _).
    { constructor. }
    { constructor. }
    cbn [app] in Hres. subst new.
    split; [exact Hn|]. split.
    + rewrite Forall_forall in *. intros e He.
      split; [now apply Hf|].
      destruct (Hfrom e He) as (b & r & a & _ & [Hc _] & _).
      destruct (entry_of_fields self r e Hc)
        as (first & x & _ & Hpid & _ & _ & _ & _ & Hfeed).
      split; [exact Hfeed | now exists first].
    + exists response. split; [exact Hnet|]. rewrite Hl.
      destruct (loop_keeps_order store self _ _ [] [] res Hloop)
        as (new & -> & Hsub).
      apply subseq_length in Hsub.
      pose proof (entries_of_length self (fst (Csv.reader rows))).
      pose proof (reader_length rows). cbn [app List.length]. lia.
Qed.

Lemma X14_what_get_returns_witness :
  NoDup (map (normalized empty_store) [sample_entry])
  /\ Forall (fun e => exists_ empty_store (url e) = false
                      /\ feed e = self_feed sample_feed
                      /\ exists first, pid e = PyStr first) [sample_entry]
  /\ exists response,
       serve (mkResponse 200 (Utf8.of_str sample_body) [])
             (request_with sample_feed
                (resolve_offset_spec empty_store sample_feed (PyInt 0)))
       = inr response
       /\ (List.length [sample_entry]
           < List.length (Bytes.splitlines (Utf8.encode (text response))))%nat.
Proof.
  apply (X14_what_get_returns empty_store
           (serve (mkResponse 200 (Utf8.of_str sample_body) []))
           sample_feed (PyInt 0) initial [sample_entry]).
  vm_compute. reflexivity.
Defined.

(** ** Blank lines in the body *)

Lemma splitlines_plain (n : nat) :
  forall b : string,
    (String.length b <= n)%nat ->
    no_quote_nul b = true ->
    Forall (fun line => plain_chars line = true
                        /\ (String.length line <= String.length b)%nat)
           (Bytes.splitlines b).
Proof.
  induction n as [|n IH]; intros b Hlen Hq.
  - destruct b; [constructor | cbn in Hlen; lia].
  - destruct b as [|c rest]; [constructor|].
    cbn [String.length] in Hlen. cbn [no_quote_nul] in Hq.
    apply andb_true_iff in Hq. destruct Hq as [Hc Hrest].
    assert (Hweaken : forall (small : string) (lines : list string),
              (String.length small <= String.length rest)%nat ->
              Forall (fun line => plain_chars line = true
                                  /\ (String.length line <= String.length small)%nat)
                     lines ->
              Forall (fun line => plain_chars line = true
                                  /\ (String.length line
                                      <= String.length (String c rest))%nat)
                     lines).
    { intros small lines Hs Hf. eapply Forall_impl; [|exact Hf].
      cbn [String.length]. intros line [H1 H2]. split; [exact H1 | lia]. }
    cbn [Bytes.splitlines].
    destruct (Bytes.is_linebreak c) eqn:Hl.
    + constructor; [split; [reflexivity | cbn; lia]|].
      destruct rest as [|c2 rest2]; [constructor|].
      destruct ((c =? Bytes.CR)%char && (c2 =? Bytes.LF)%char).
      * apply (Hweaken rest2); [cbn; lia|].
        cbn [no_quote_nul] in Hrest. apply andb_true_iff in Hrest.
        apply IH; [cbn [String.length] in Hlen; lia | tauto].
      * apply (Hweaken (String c2 rest2)); [lia|]. apply IH; [lia | exact Hrest].
    + assert (Hpc : plain_char c = true).
      { unfold plain_char. apply negb_true_iff in Hc.
        apply orb_false_iff in Hc. destruct Hc as [H1 H2].
        now rewrite H1, H2, Hl. }
      pose proof (IH rest ltac:(lia) Hrest) as Hf.
      destruct (Bytes.splitlines rest) as [|l ls].
      * constructor; [|constructor]. split; [cbn; now rewrite Hpc | cbn; lia].
      * inversion Hf as [|? ? [Hl1 Hl2] Hls]; subst.
        constructor.
        -- split; [cbn [plain_chars]; now rewrite Hpc, Hl1 | cbn; lia].
        -- now apply (Hweaken rest).
Qed.

(** X15: for a successful response whose body has no quote character and
    no NUL and is within the field limit of the csv module, and has at
    least one line after the header: [get] raises IndexError when one of
    the lines after the header is blank, and returns a list otherwise. *)
Theorem X15_blank_line_aborts_get store requests_get self offset w response
    header rows :
  requests_get (request_with self (resolve_offset_spec store self offset))
  = inr response ->
  ok response = true ->
  no_quote_nul (Utf8.encode (text response)) = true ->
  (N.of_nat (String.length (Utf8.encode (text response))) <= Csv.field_limit)%N ->
  Bytes.splitlines (Utf8.encode (text response)) = header :: rows ->
  rows <> [] ->
  (In "" rows ->
   fst (get store requests_get self offset w) = Raises (Builtin IndexError))
  /\ (~ In "" rows ->
      exists res, fst (get store requests_get self offset w) = Returns res).
Proof.
  intros Hnet Hok Hq Hlim Hl Hne.
  assert (Hp : Forall (fun line => plain_row line = true) rows).
  { pose proof (splitlines_plain _ _ (Nat.le_refl _) Hq) as Hf.
    rewrite Hl in Hf. inversion Hf as [|? ? _ Hrows]; subst.
    eapply Forall_impl; [|exact Hrows]. intros line [H1 H2].
    unfold plain_row. rewrite H1. cbn [andb]. apply N.leb_le. lia. }
  rewrite (get_ok_outcome _ _ _ _ w _ _ _ Hnet Hok Hl).
  destruct rows as [|row rows']; [contradiction|].
  rewrite (CsvFacts.reader_plain _ Hp). cbn [fst snd].
  pose proof (loop_outcome_cases store self
                (map record_of_line (row :: rows')) None [] []) as Hc.
  destruct (loop_outcome store self (map record_of_line (row :: rows')) None [] [])
    as [res|e]; split.
  - intros Hin. destruct Hc as [_ Hf]. rewrite Forall_forall in Hf.
    exfalso. apply (Hf (record_of_line "")); [|reflexivity].
    now apply in_map.
  - intros _. now exists res.
  - intros _. destruct Hc as [[-> _]|(reason & _ & Hs & _)];
      [reflexivity | discriminate].
  - intros Hno. exfalso.
    destruct Hc as [[_ Hex]|(reason & _ & Hs & _)]; [|discriminate].
    apply Exists_exists in Hex. destruct Hex as (record & Hin & ->).
    apply in_map_iff in Hin. destruct Hin as (line & Hline & Hin).
    apply CsvFacts.record_of_line_nil in Hline. now subst line.
Qed.

Lemma X15_blank_line_aborts_get_witness :
  (In "" [""; sample_row] ->
   fst (get empty_store
            (serve (mkResponse 200
                      (Utf8.of_str ("header" ++ nl ++ nl ++ sample_row ++ nl)%string)
                      []))
            sample_feed (PyInt 0) initial)
   = Raises (Builtin IndexError))
  /\ (~ In "" [""; sample_row] ->
      exists res,
        fst (get empty_store
                 (serve (mkResponse 200
                           (Utf8.of_str ("header" ++ nl ++ nl ++ sample_row ++ nl)%string)
                           []))
                 sample_feed (PyInt 0) initial)
        = Returns res).
Proof.
  apply (X15_blank_line_aborts_get empty_store
           (serve (mkResponse 200
                     (Utf8.of_str ("header" ++ nl ++ nl ++ sample_row ++ nl)%string)
                     []))
           sample_feed (PyInt 0) initial
           (mkResponse 200
              (Utf8.of_str ("header" ++ nl ++ nl ++ sample_row ++ nl)%string) [])
           "header" [""; sample_row]).
  - reflexivity.
  - reflexivity.
  - vm_compute. reflexivity.
  - vm_compute. discriminate.
  - vm_compute. reflexivity.
  - discriminate.
Defined.
